(** * SyDeTre chat actions: a shallow embedding of the server actions

  The file embeds the server actions of the chat front-end
  ([performAction], [submitUserMessage]), the persistence handler
  ([onSetAIState]) and the UI projection ([getUIStateFromAIState]),
  and proves the properties the specification states about them.

  JavaScript strings are modelled as [string] (a sequence of code
  units), arrays as [list], [undefined]-able fields as [option]. *)

From Stdlib Require Import ZArith Lia Ascii String.
From stdpp Require Import base option list strings pretty.

Local Open Scope string_scope.
Local Open Scope list_scope.

Set Warnings "-register-all".

(** ** JavaScript values and strings *)

Module JS.

(** [Number.isSafeInteger] on the integers. *)
Definition is_safe_integer (n : Z) : bool :=
  (Z.abs n <=? 9007199254740991)%Z.

(** The values a [details: any] argument or a message [content] can
    hold.  [Num n _] is the number of the safe integer [n], whose
    numeral is the decimal one; [NaN] and [Infinity] are the numbers
    that are not finite; [BigInt n] is the bigint [n]; [Func] is a
    function and [Sym] a symbol; [Obj] lists the own enumerable
    properties of a plain object in enumeration order; [Circular] is an
    object or array that contains itself.  Numbers with a fraction and
    objects with a [toJSON] method are not modelled. *)
Inductive Value : Type :=
| Undefined
| Null
| Bool (b : bool)
| Num (n : Z) (safe : is_safe_integer n = true)
| NaN
| Infinity (negative : bool)
| BigInt (n : Z)
| Str (s : string)
| Func
| Sym
| Arr (xs : list Value)
| Obj (fields : list (string * Value))
| Circular.

(** Exceptions the modelled code can raise. *)
Inductive Error : Type :=
| TypeError (msg : string)
| StreamClosed (method : string)
| ModelError.                   (* the error a failing model call gives *)

(** A computation that returns or throws.  A throw ends the run.  The
    callback [text] and the background task of [performAction] write
    the store only after their last call that can throw, so a run of
    theirs that throws has left the store as it was; a rejected model
    call makes [submitUserMessage] throw after its first write. *)
Inductive Result (A : Type) : Type :=
| Ok (a : A)
| Throw (e : Error).
Arguments Ok {A} a.
Arguments Throw {A} e.

Definition bind {A B} (r : Result A) (k : A -> Result B) : Result B :=
  match r with
  | Ok a => k a
  | Throw e => Throw e
  end.

(** ** [String.prototype.substring] *)

Fixpoint take (n : nat) (s : string) : string :=
  match n, s with
  | S n', String c s' => String c (take n' s')
  | _, _ => EmptyString
  end.

Fixpoint drop (n : nat) (s : string) : string :=
  match n, s with
  | S n', String _ s' => drop n' s'
  | _, _ => s
  end.

(** [s.substring(start, end)]: both indices are clamped to
    [0 .. s.length] and swapped when [start > end]. *)
Definition substring (start end_ : Z) (s : string) : string :=
  let len := Z.of_nat (String.length s) in
  let clamp i := Z.min (Z.max i 0) len in
  let lo := Z.min (clamp start) (clamp end_) in
  let hi := Z.max (clamp start) (clamp end_) in
  drop (Z.to_nat lo) (take (Z.to_nat hi) s).

(** ** [JSON.stringify] *)

Definition hex_digit (n : N) : ascii :=
  match n with
  | 0 => "0" | 1 => "1" | 2 => "2" | 3 => "3" | 4 => "4" | 5 => "5"
  | 6 => "6" | 7 => "7" | 8 => "8" | 9 => "9" | 10 => "a" | 11 => "b"
  | 12 => "c" | 13 => "d" | 14 => "e" | _ => "f"
  end%N%char.

(** The double quote and the backslash, code units 34 and 92. *)
Definition dquote : string := String (ascii_of_N 34) EmptyString.
Definition backslash : string := String (ascii_of_N 92) EmptyString.

(** One code unit inside a JSON string literal. *)
Definition escape_char (c : ascii) : string :=
  let n := N_of_ascii c in
  if (n =? 34)%N then backslash +:+ dquote
  else if (n =? 92)%N then backslash +:+ backslash
  else if (n =? 8)%N then backslash +:+ "b"
  else if (n =? 12)%N then backslash +:+ "f"
  else if (n =? 10)%N then backslash +:+ "n"
  else if (n =? 13)%N then backslash +:+ "r"
  else if (n =? 9)%N then backslash +:+ "t"
  else if (n <? 32)%N then
    backslash +:+ "u00"
      +:+ String (hex_digit (n / 16)) (String (hex_digit (n mod 16)) EmptyString)
  else String c EmptyString.

Fixpoint escape (s : string) : string :=
  match s with
  | EmptyString => EmptyString
  | String c s' => escape_char c +:+ escape s'
  end.

Definition quote (s : string) : string := dquote +:+ escape s +:+ dquote.

Fixpoint join (sep : string) (xs : list string) : string :=
  match xs with
  | [] => EmptyString
  | [x] => x
  | x :: rest => x +:+ sep +:+ join sep rest
  end.

(** [JSON.stringify(v)].  [None] is the [undefined] it returns for
    [undefined], a function or a symbol; inside an array these print as
    [null], inside an object the property is left out.  A number that
    is not finite prints as [null].  A bigint or a circular structure,
    at any depth, makes it throw a [TypeError]. *)
Fixpoint stringify (v : Value) : Result (option string) :=
  match v with
  | Undefined | Func | Sym => Ok None
  | Null | NaN | Infinity _ => Ok (Some "null")
  | Bool true => Ok (Some "true")
  | Bool false => Ok (Some "false")
  | Num n _ => Ok (Some (pretty n))
  | BigInt _ => Throw (TypeError "Do not know how to serialize a BigInt")
  | Circular => Throw (TypeError "Converting circular structure to JSON")
  | Str s => Ok (Some (quote s))
  | Arr xs =>
      bind
        ((fix go (l : list Value) : Result (list string) :=
            match l with
            | [] => Ok []
            | x :: l' =>
                bind (stringify x) (fun o =>
                bind (go l') (fun rest => Ok (default "null" o :: rest)))
            end) xs)
        (fun elems => Ok (Some ("[" +:+ join "," elems +:+ "]")))
  | Obj fields =>
      bind
        ((fix go (l : list (string * Value)) : Result (list string) :=
            match l with
            | [] => Ok []
            | (k, x) :: l' =>
                bind (stringify x) (fun o =>
                bind (go l') (fun rest =>
                  Ok match o with
                     | Some t => (quote k +:+ ":" +:+ t) :: rest
                     | None => rest
                     end))
            end) fields)
        (fun props => Ok (Some ("{" +:+ join "," props +:+ "}")))
  end.

(** What [JSON.stringify(v)] returns, where it returns. *)
Definition stringified (v : Value) : option string :=
  match stringify v with
  | Ok o => o
  | Throw _ => None
  end.

(** Interpolation [`${e}`] of a value that is a string or [undefined]. *)
Definition template (o : option string) : string := default "undefined" o.

End JS.

#[global] Instance Result_ret : MRet JS.Result := @JS.Ok.
#[global] Instance Result_bind : MBind JS.Result := fun A B k r => JS.bind r k.

(** ** Data model ([lib/types], [AIState], [UIState]) *)

(** [Message]: a core message of the AI SDK with an [id].  [role] is the
    string the code compares against; [content] is a string or an array
    of content parts; [name] is optional. *)
Module Message.
Record t : Type := mk {
  id : string;
  role : string;
  content : JS.Value;
  name : option string
}.
End Message.

(** [AIState = { chatId: string, messages: Message[] }] *)
Module AIState.
Record t : Type := mk {
  chatId : string;
  messages : list Message.t
}.
End AIState.

(** The rendered nodes the actions produce, by component. *)
Inductive BotContent : Type :=
| BotText (s : string)          (* a finished string *)
| BotStream.                    (* [textStream.value], the live stream *)

Inductive ReactNode : Type :=
| NullNode
| SpinnerMessage
| UserMessage (children : JS.Value)
| BotMessage (content : BotContent)
| SystemMessage (children : string)
| StatusLine (spinner : bool) (text : string)
| UIError (e : JS.Error).       (* a UI stream ended with [ui.error(e)] *)

(** One element of [UIState]. *)
Module UIEntry.
Record t : Type := mk {
  id : string;
  display : ReactNode
}.
End UIEntry.

(** [Chat], the record handed to [saveChat].  [createdAt] is the clock
    reading of [new Date()]; [userId] is [session.user.id], which the
    cast [as string] does not check. *)
Module Chat.
Record t : Type := mk {
  id : string;
  title : string;
  userId : option string;
  createdAt : Z;
  messages : list Message.t;
  path : string
}.
End Chat.

(** The result of [auth()]: a session, possibly without a user. *)
Record User : Type := { user_id : option string }.
Record Session : Type := { user : option User }.

(** ** Streamables of [ai/rsc] *)

(** [createStreamableValue<string>]: the value it holds, whether it was
    closed, and the successive values it has held, oldest first.
    [update] replaces the held value; [update] and [done] throw once
    the stream is closed. *)
Module StreamableValue.
Record t : Type := mk {
  current : string;
  closed : bool;
  emitted : list string
}.

Definition create (initial : string) : t :=
  {| current := initial; closed := false; emitted := [initial] |}.

Definition update (v : string) (s : t) : JS.Result t :=
  if closed s then JS.Throw (JS.StreamClosed ".update()")
  else JS.Ok {| current := v; closed := false; emitted := emitted s ++ [v] |}.

(** [done()] without an argument. *)
Definition done (s : t) : JS.Result t :=
  if closed s then JS.Throw (JS.StreamClosed ".done()")
  else JS.Ok {| current := current s; closed := true; emitted := emitted s |}.

(** The values the stream has held, concatenated in order. *)
Definition received (s : t) : string := foldr String.append EmptyString (emitted s).
End StreamableValue.

(** [createStreamableUI]: the node shown and whether it was closed. *)
Module StreamableUI.
Record t : Type := mk {
  node : ReactNode;
  closed : bool
}.

Definition create (initial : ReactNode) : t :=
  {| node := initial; closed := false |}.

Definition update (n : ReactNode) (s : t) : JS.Result t :=
  if closed s then JS.Throw (JS.StreamClosed ".update()")
  else JS.Ok {| node := n; closed := false |}.

Definition done (n : ReactNode) (s : t) : JS.Result t :=
  if closed s then JS.Throw (JS.StreamClosed ".done()")
  else JS.Ok {| node := n; closed := true |}.
End StreamableUI.

(** [getMutableAIState()]: the store of the running action.  [update]
    and [done] both replace the state; [done] also finalizes it. *)
Module MutableAIState.
Record t : Type := mk {
  state : AIState.t;
  finalized : bool
}.

Definition get (s : t) : AIState.t := state s.

Definition update (new : AIState.t) (s : t) : t :=
  {| state := new; finalized := finalized s |}.

Definition done (new : AIState.t) (_ : t) : t :=
  {| state := new; finalized := true |}.
End MutableAIState.

(** What an action runs in: its store and the number of ids drawn so far. *)
Record Ctx : Type := {
  aiState : MutableAIState.t;
  ids : nat
}.

(** [{ ...aiState.get(), messages: [...aiState.get().messages, m] }] *)
Definition with_message (m : Message.t) (s : AIState.t) : AIState.t :=
  {| AIState.chatId := AIState.chatId s;
     AIState.messages := AIState.messages s ++ [m] |}.

(** The argument of the [text] callback of [streamUI]. *)
Module Increment.
Record t : Type := mk {
  content : string;
  done : bool;
  delta : string
}.
End Increment.

(** One entry of the [messages] option of [streamUI]. *)
Module CoreMessage.
Record t : Type := mk {
  role : string;
  content : JS.Value;
  name : option string
}.
End CoreMessage.

(** The options [streamUI] is called with. *)
Record StreamUIOptions : Type := {
  model : string;
  initial : ReactNode;
  system : string;
  messages : list CoreMessage.t
}.

Definition model_id : string := "ft:open-mistral-7b:1b8e4d68:20240615:677d3e2e".

Definition system_prompt : string :=
  "    You are SyDeTre, an AI companion that helps others recognize their symptoms, provide possible diseases
    they may be facing and what treatment they should get. You are not a replacement for a doctor
    but will still provide helpful insights to patients. Do not mention "
  +:+ JS.quote "based on the information" +:+ " or similar in your answer.
    Respond to the queries in detail.
    Given this information answer the query below: ".

(** ** The actions *)

Section Actions.

(** [nanoid()]: the [n]-th identifier generated for the request. *)
Variable nanoid : nat -> string.

(** Draws one id. *)
Definition fresh (c : Ctx) : string * Ctx :=
  (nanoid (ids c), {| aiState := aiState c; ids := S (ids c) |}).

(** [aiState.update(s)] and [aiState.done(s)] on the context. *)
Definition ctx_update (f : AIState.t -> AIState.t) (c : Ctx) : Ctx :=
  {| aiState := MutableAIState.update (f (MutableAIState.get (aiState c))) (aiState c);
     ids := ids c |}.

Definition ctx_done (f : AIState.t -> AIState.t) (c : Ctx) : Ctx :=
  {| aiState := MutableAIState.done (f (MutableAIState.get (aiState c))) (aiState c);
     ids := ids c |}.

(** The messages currently in the store. *)
Definition stored (c : Ctx) : list Message.t :=
  AIState.messages (MutableAIState.get (aiState c)).

(** *** [performAction] *)

(** The state of one [performAction] call: its context and its two
    UI streams. *)
Record ActionState : Type := {
  act_ctx : Ctx;
  performingAction : StreamableUI.t;
  systemMessage : StreamableUI.t
}.

(** The value [performAction] returns. *)
Record ActionResult : Type := {
  actionUI : ReactNode;
  newMessage : UIEntry.t
}.

(** The text of the system record for what [JSON.stringify(details)]
    has returned:
    [`[User performed action: ${action}. Details: ${JSON.stringify(details)}]`] *)
Definition summary_text (action : string) (json : option string) : string :=
  "[User performed action: " +:+ action +:+ ". Details: "
    +:+ JS.template json +:+ "]".

(** The content of the system record of an action whose details
    [JSON.stringify] serializes. *)
Definition action_summary (action : string) (details : JS.Value) : string :=
  summary_text action (JS.stringified details).

(** The synchronous part: both streams are created, the background task
    is started and the handles are returned. *)
Definition performAction (action : string) (details : JS.Value) (c : Ctx)
  : ActionState * ActionResult :=
  let performing :=
    StreamableUI.create (StatusLine true ("Performing action: " +:+ action +:+ "...")) in
  let system := StreamableUI.create NullNode in
  let '(i, c') := fresh c in
  ({| act_ctx := c'; performingAction := performing; systemMessage := system |},
   {| actionUI := StreamableUI.node performing;
      newMessage := {| UIEntry.id := i; UIEntry.display := StreamableUI.node system |} |}).

(** The background task after the first [sleep(1000)]. *)
Definition performAction_working (action : string) (w : ActionState)
  : JS.Result ActionState :=
  p ← StreamableUI.update
        (StatusLine true ("Performing action: " +:+ action +:+ "... working on it..."))
        (performingAction w);
  mret {| act_ctx := act_ctx w; performingAction := p;
          systemMessage := systemMessage w |}.

(** The background task after the second [sleep(1000)], first part:
    both UI streams are closed with their final nodes. *)
Definition performAction_close (action : string) (w : ActionState)
  : JS.Result ActionState :=
  p ← StreamableUI.done
        (StatusLine false ("Action " +:+ action +:+ " completed successfully."))
        (performingAction w);
  s ← StreamableUI.done
        (SystemMessage ("The action " +:+ action +:+ " has been completed successfully."))
        (systemMessage w);
  mret {| act_ctx := act_ctx w; performingAction := p; systemMessage := s |}.

(** Second part: the argument of [aiState.done] is built, which draws
    the id and serializes the details, and the store is written.  A
    throw of [JSON.stringify] comes before the write. *)
Definition performAction_record (action : string) (details : JS.Value)
    (w : ActionState) : JS.Result ActionState :=
  let '(i, c) := fresh (act_ctx w) in
  json ← JS.stringify details;
  let m := {| Message.id := i; Message.role := "system";
              Message.content := JS.Str (summary_text action json);
              Message.name := None |} in
  mret {| act_ctx := ctx_done (with_message m) c;
          performingAction := performingAction w;
          systemMessage := systemMessage w |}.

(** The terminal phase. *)
Definition performAction_finish (action : string) (details : JS.Value)
    (w : ActionState) : JS.Result ActionState :=
  w1 ← performAction_close action w;
  performAction_record action details w1.

(** The whole background task. *)
Definition performAction_task (action : string) (details : JS.Value)
    (w : ActionState) : JS.Result ActionState :=
  w1 ← performAction_working action w;
  performAction_finish action details w1.

(** *** [submitUserMessage] *)

(** The state of one [submitUserMessage] call: its context and the two
    variables the [text] callback closes over. *)
Record SubmitState : Type := {
  sub_ctx : Ctx;
  textStream : option StreamableValue.t;
  textNode : option ReactNode
}.

(** [message => ({ role, content, name })] *)
Definition to_core (message : Message.t) : CoreMessage.t :=
  {| CoreMessage.role := Message.role message;
     CoreMessage.content := Message.content message;
     CoreMessage.name := Message.name message |}.

(** The part before the stream: the user message is appended with
    [aiState.update] and the options of [streamUI] are built from the
    store. *)
Definition submit_begin (content : string) (c : Ctx)
  : SubmitState * StreamUIOptions :=
  let '(i, c1) := fresh c in
  let m := {| Message.id := i; Message.role := "user";
              Message.content := JS.Str content; Message.name := None |} in
  let c2 := ctx_update (with_message m) c1 in
  ({| sub_ctx := c2; textStream := None; textNode := None |},
   {| model := model_id; initial := SpinnerMessage; system := system_prompt;
      messages := to_core <$> stored c2 |}).

(** The [text] callback, applied to one increment; it returns the node
    to render. *)
Definition text (inc : Increment.t) (w : SubmitState)
  : JS.Result (SubmitState * option ReactNode) :=
  let '(stream, node) :=
    match textStream w with
    | None => (StreamableValue.create EmptyString, Some (BotMessage BotStream))
    | Some s => (s, textNode w)
    end in
  if Increment.done inc then
    s ← StreamableValue.done stream;
    let '(i, c) := fresh (sub_ctx w) in
    let m := {| Message.id := i; Message.role := "assistant";
                Message.content := JS.Str (Increment.content inc);
                Message.name := None |} in
    mret ({| sub_ctx := ctx_done (with_message m) c; textStream := Some s;
             textNode := node |}, node)
  else
    s ← StreamableValue.update (Increment.delta inc) stream;
    mret ({| sub_ctx := sub_ctx w; textStream := Some s; textNode := node |}, node).

(** [streamUI] delivering a sequence of increments to [text], in order. *)
Fixpoint deliver (incs : list Increment.t) (w : SubmitState)
  : JS.Result SubmitState :=
  match incs with
  | [] => mret w
  | inc :: rest => r ← text inc w; deliver rest r.1
  end.

(** [streamUI] consuming the model stream: [text] is called on the
    increments in order, and a throw of [text] is caught and ends the
    run.  The result is the state reached and, unless the run ended
    with a terminal increment, the error the UI stream is ended with:
    the error [text] threw, or the error of a model stream that broke
    off before its terminal increment.  [finished] tells whether the
    last increment consumed was terminal. *)
Fixpoint consume (finished : bool) (incs : list Increment.t) (w : SubmitState)
  : SubmitState * option JS.Error :=
  match incs with
  | [] => (w, if finished then None else Some JS.ModelError)
  | inc :: rest =>
      match text inc w with
      | JS.Ok (w', _) => consume (Increment.done inc) rest w'
      | JS.Throw e => (w, Some e)
      end
  end.

(** What the model call gives [streamUI]: it is rejected at once, or it
    is accepted and [text] is called on a sequence of increments. *)
Inductive ModelCall : Type :=
| Rejected (e : JS.Error)
| Accepted (incs : list Increment.t).

(** A call of [submitUserMessage]: the final state, the options the
    model was called with and the entry returned.  When the model call
    is rejected, [streamUI] and with it the action throw, after the
    user message was appended.  The entry's display is the UI stream of
    [streamUI]: the initial node until [text] has returned another,
    and the error when the stream was ended with one. *)
Definition submitUserMessage_on (content : string) (call : ModelCall)
    (c : Ctx) : JS.Result (SubmitState * StreamUIOptions * UIEntry.t) :=
  let '(w, opts) := submit_begin content c in
  match call with
  | Rejected e => JS.Throw e
  | Accepted incs =>
      let '(i, c') := fresh (sub_ctx w) in
      let '(w', failure) :=
        consume false incs {| sub_ctx := c'; textStream := textStream w;
                              textNode := textNode w |} in
      mret (w', opts,
            {| UIEntry.id := i;
               UIEntry.display :=
                 match failure with
                 | None => default (initial opts) (textNode w')
                 | Some e => UIError e
                 end |})
  end.

(** A call whose model call is accepted and delivers [incs]. *)
Definition submitUserMessage (content : string) (incs : list Increment.t)
    (c : Ctx) : JS.Result (SubmitState * StreamUIOptions * UIEntry.t) :=
  submitUserMessage_on content (Accepted incs) c.

End Actions.

(** ** Persistence: [onSetAIState] *)

(** What one run of the handler did. *)
Inductive Persisted : Type :=
| Returned                      (* the [else] branch: plain [return] *)
| SaveChat (chat : Chat.t).     (* [saveChat(chat)] was called *)

(** [messages[0].content]: reading a property of [undefined] throws. *)
Definition first_content (messages : list Message.t) : JS.Result JS.Value :=
  match messages !! 0 with
  | Some m => JS.Ok (Message.content m)
  | None => JS.Throw (JS.TypeError "Cannot read properties of undefined (reading 'content')")
  end.

(** [firstMessageContent.substring(0, 100)]: the cast [as string] checks
    nothing, and only a string has the method. *)
Definition title_of (firstMessageContent : JS.Value) : JS.Result string :=
  match firstMessageContent with
  | JS.Str s => JS.Ok (JS.substring 0 100 s)
  | _ => JS.Throw (JS.TypeError "firstMessageContent.substring is not a function")
  end.

(** The handler, given what [auth()] and [new Date()] return. *)
Definition onSetAIState (session : option Session) (now : Z)
    (state : AIState.t) : JS.Result Persisted :=
  match session with
  | Some {| user := Some u |} =>
      let chatId := AIState.chatId state in
      let messages := AIState.messages state in
      let createdAt := now in
      let userId := user_id u in
      let path := "/chat/" +:+ chatId in
      firstMessageContent ← first_content messages;
      title ← title_of firstMessageContent;
      mret (SaveChat {| Chat.id := chatId; Chat.title := title;
                        Chat.userId := userId; Chat.createdAt := createdAt;
                        Chat.messages := messages; Chat.path := path |})
  | _ => mret Returned
  end.

(** ** The UI projection: [getUIStateFromAIState] *)

(** [message.role !== 'system'] *)
Definition not_system (message : Message.t) : Prop :=
  Message.role message ≠ "system".

#[global] Instance not_system_dec message : Decision (not_system message).
Proof. unfold not_system. apply _. Defined.

(** The [display] of an entry. *)
Definition display_of (message : Message.t) : ReactNode :=
  if decide (Message.role message = "user") then
    UserMessage (Message.content message)
  else if decide (Message.role message = "assistant") then
    match Message.content message with
    | JS.Str s => BotMessage (BotText s)
    | _ => NullNode
    end
  else NullNode.

(** The argument is the value of [getAIState()]; its [chatId] and
    [messages] are the only fields read. *)
Definition getUIStateFromAIState (aiState : AIState.t) : list UIEntry.t :=
  imap (fun index message =>
          {| UIEntry.id := AIState.chatId aiState +:+ "-" +:+ pretty index;
             UIEntry.display := display_of message |})
       (filter not_system (AIState.messages aiState)).

(** [onGetUIState], given what [auth()] returns; [None] is [undefined]. *)
Definition onGetUIState (session : option Session) (aiState : option AIState.t)
  : option (list UIEntry.t) :=
  match session with
  | Some {| user := Some _ |} => getUIStateFromAIState <$> aiState
  | _ => None
  end.

(** * Vocabulary of the properties *)

(** The messages the projection keeps. *)
Definition kept (st : AIState.t) : list Message.t :=
  filter not_system (AIState.messages st).

(** The entry made at position [i] of the filtered list. *)
Definition entry_at (st : AIState.t) (i : nat) (m : Message.t) : UIEntry.t :=
  {| UIEntry.id := AIState.chatId st +:+ "-" +:+ pretty i;
     UIEntry.display := display_of m |}.

(** Two messages with the same role and content; their ids and names
    may differ. *)
Definition same_text (m m' : Message.t) : Prop :=
  Message.role m = Message.role m' ∧ Message.content m = Message.content m'.

(** The records the actions append. *)
Definition user_record (i content : string) : Message.t :=
  {| Message.id := i; Message.role := "user";
     Message.content := JS.Str content; Message.name := None |}.

Definition assistant_record (i content : string) : Message.t :=
  {| Message.id := i; Message.role := "assistant";
     Message.content := JS.Str content; Message.name := None |}.

Definition system_record (i : string) (action : string) (details : JS.Value)
  : Message.t :=
  {| Message.id := i; Message.role := "system";
     Message.content := JS.Str (action_summary action details);
     Message.name := None |}.

(** The state in which [performAction] calls [JSON.stringify]: both UI
    streams closed with their final nodes, the context untouched. *)
Definition closed_state (action : string) (a : ActionState) : ActionState :=
  {| act_ctx := act_ctx a;
     performingAction :=
       {| StreamableUI.node :=
            StatusLine false ("Action " +:+ action +:+ " completed successfully.");
          StreamableUI.closed := true |};
     systemMessage :=
       {| StreamableUI.node :=
            SystemMessage
              ("The action " +:+ action +:+ " has been completed successfully.");
          StreamableUI.closed := true |} |}.

(** The state the terminal phase of [performAction] leaves, when it
    returns. *)
Definition finished_state (nanoid : nat → string) (action : string)
    (details : JS.Value) (a : ActionState) : ActionState :=
  {| act_ctx :=
       ctx_done
         (with_message (system_record (nanoid (ids (act_ctx a))) action details))
         (fresh nanoid (act_ctx a)).2;
     performingAction := performingAction (closed_state action a);
     systemMessage := systemMessage (closed_state action a) |}.

(** The action property as the specification words it: whatever the
    details, the background task reaches its end and has appended
    exactly one system message, whose content embeds
    [JSON.stringify(details)]. *)
Definition action_always_recorded : Prop :=
  ∀ (nanoid : nat → string) (action : string) (details : JS.Value) (c : Ctx),
    ∃ a m json,
      performAction_task nanoid action details
        (performAction nanoid action details c).1 = JS.Ok a
      ∧ stored (act_ctx a) = stored c ++ [m]
      ∧ Message.role m = "system"
      ∧ JS.stringify details = JS.Ok json
      ∧ Message.content m
        = JS.Str ("[User performed action: " +:+ action +:+ ". Details: "
                    +:+ JS.template json +:+ "]").

(** The stream and the node [text] works on, created if there is none. *)
Definition stream_of (w : SubmitState) : StreamableValue.t :=
  default (StreamableValue.create EmptyString) (textStream w).

Definition node_of (w : SubmitState) : option ReactNode :=
  match textStream w with
  | None => Some (BotMessage BotStream)
  | Some _ => textNode w
  end.

Definition non_terminal (inc : Increment.t) : Prop := Increment.done inc = false.

(** Whether a run of increments has ended with a terminal one;
    [finished] answers for the empty run. *)
Definition ends_terminal (finished : bool) (incs : list Increment.t) : bool :=
  default finished (Increment.done <$> last incs).

(** The state in which [streamUI] starts to consume the stream of a
    call: the user message appended, the id of the returned entry
    drawn, no text stream yet. *)
Definition stream_start (nanoid : nat → string) (content : string) (c : Ctx)
  : SubmitState :=
  {| sub_ctx := (fresh nanoid (sub_ctx (submit_begin nanoid content c).1)).2;
     textStream := None; textNode := None |}.

(** The deltas of a run, and the concatenation of a list of strings. *)
Definition deltas (incs : list Increment.t) : list string :=
  Increment.delta <$> incs.

Definition concat_strings (l : list string) : string :=
  foldr String.append EmptyString l.

(** The stream property as the specification words it: at close, the
    value the stream holds is the full content of the terminal
    increment. *)
Definition stream_holds_full_content : Prop :=
  ∀ (nanoid : nat → string) (incs : list Increment.t) (t : Increment.t)
    (w w' : SubmitState) (s : StreamableValue.t),
    Forall non_terminal incs →
    Increment.done t = true →
    Increment.content t = concat_strings (deltas incs) →
    textStream w = None →
    deliver nanoid (incs ++ [t]) w = JS.Ok w' →
    textStream w' = Some s →
    StreamableValue.current s = Increment.content t.

(** The ids of the stored messages are pairwise distinct and were all
    drawn from [nanoid] before the counter of the context. *)
Definition ids_drawn (nanoid : nat → string) (c : Ctx) : Prop :=
  NoDup (Message.id <$> stored c)
  ∧ ∀ m, m ∈ stored c → ∃ k, k < ids c ∧ Message.id m = nanoid k.

(** [initialAIState] for a generated [chatId], and [initialUIState]. *)
Definition initialAIState (chatId : string) : AIState.t :=
  {| AIState.chatId := chatId; AIState.messages := [] |}.

Definition initialUIState : list UIEntry.t := [].

(** ** Sample data *)

(** A generator of ids. *)
Definition example_ids (n : nat) : string := "id-" +:+ pretty n.

Definition empty_ctx : Ctx :=
  {| aiState := {| MutableAIState.state := AIState.mk "chat" [];
                   MutableAIState.finalized := false |};
     ids := 0 |}.

(** The context a first whole call leaves: two messages, three ids
    drawn. *)
Definition turn_ctx : Ctx :=
  {| aiState :=
       {| MutableAIState.state :=
            AIState.mk "chat"
              [ user_record (example_ids 0) "I have a headache";
                assistant_record (example_ids 2) "Try resting" ];
          MutableAIState.finalized := true |};
     ids := 3 |}.

Definition example_state : AIState.t :=
  AIState.mk "chat"
    [ Message.mk "m1" "user" (JS.Str "I have a headache") None;
      Message.mk "m2" "system" (JS.Str "[note]") None;
      Message.mk "m3" "assistant" (JS.Str "Try resting and hydrating") None ].

(** The same conversation with other message ids. *)
Definition example_state_reissued : AIState.t :=
  AIState.mk "chat"
    [ Message.mk "x1" "user" (JS.Str "I have a headache") None;
      Message.mk "x2" "system" (JS.Str "[note]") None;
      Message.mk "x3" "assistant" (JS.Str "Try resting and hydrating") None ].

Definition example_session : option Session :=
  Some {| user := Some {| user_id := Some "user-1" |} |}.

Definition example_chat : Chat.t :=
  {| Chat.id := "chat"; Chat.title := "I have a headache";
     Chat.userId := Some "user-1"; Chat.createdAt := 1718409600000;
     Chat.messages := AIState.messages example_state;
     Chat.path := "/chat/chat" |}.

(** A message of 150 characters. *)
Definition long_message : string :=
  "I have had a pounding headache behind my left eye since Monday morning, with nausea, blurred vision and a stiff neck that gets worse when I bend down.".

Definition long_state : AIState.t :=
  AIState.mk "chat" [ Message.mk "m1" "user" (JS.Str long_message) None ].

Definition two_deltas : list Increment.t :=
  [ Increment.mk "Try " false "Try ";
    Increment.mk "Try resting" false "resting" ].

Definition two_deltas_end : Increment.t :=
  Increment.mk "Try resting" true EmptyString.

Definition headache_stream : list Increment.t :=
  [ Increment.mk "Try resting" false "Try resting";
    Increment.mk "Try resting and hydrating" false " and hydrating" ].

Definition headache_end : Increment.t :=
  Increment.mk "Try resting and hydrating" true EmptyString.

(** * Properties *)

(** ** [JSON.stringify] *)

Example stringify_bp :
  JS.stringify (JS.Obj [("bp", JS.Str "120/80")])
  = JS.Ok (Some ("{" +:+ JS.quote "bp" +:+ ":" +:+ JS.quote "120/80" +:+ "}")).
Proof. vm_compute. reflexivity. Qed.

(** ** The UI projection *)

Section Projection.

Implicit Types (st : AIState.t) (m : Message.t) (e : UIEntry.t).

Lemma projection_lookup st i :
  getUIStateFromAIState st !! i = entry_at st i <$> kept st !! i.
Proof. unfold getUIStateFromAIState. by rewrite list_lookup_imap. Qed.

Lemma projection_length st :
  length (getUIStateFromAIState st) = length (kept st).
Proof. unfold getUIStateFromAIState. by rewrite length_imap. Qed.

Lemma Forall2_imap {A B} (R : A → B → Prop) (f : nat → A → B) (l : list A) :
  (∀ i x, l !! i = Some x → R x (f i x)) → Forall2 R l (imap f l).
Proof.
  revert f. induction l as [|x l IH]; intros f Hf; [constructor|].
  rewrite imap_cons. constructor.
  - by apply (Hf 0).
  - apply IH. intros i y Hy. by apply (Hf (S i)).
Qed.

Lemma kept_elem_of st m :
  m ∈ kept st ↔ m ∈ AIState.messages st ∧ Message.role m ≠ "system".
Proof. unfold kept. rewrite list_elem_of_filter. unfold not_system. tauto. Qed.

Lemma kept_complement st :
  kept st ++ filter (λ m, Message.role m = "system") (AIState.messages st)
  ≡ₚ AIState.messages st.
Proof.
  unfold kept. induction (AIState.messages st) as [|m l IH]; [done|].
  rewrite !filter_cons.
  destruct (decide (not_system m)) as [Hm|Hm],
           (decide (Message.role m = "system")) as [Hs|Hs];
    unfold not_system in Hm; try done.
  - simpl. by rewrite IH.
  - by rewrite <- Permutation_middle, IH.
Qed.

Lemma display_of_same_text m m' : same_text m m' → display_of m = display_of m'.
Proof. intros [Hr Hc]. unfold display_of. by rewrite Hr, Hc. Qed.

Lemma imap_Forall2_eq {A B} (f g : nat → A → B) (l l' : list A) (R : A → A → Prop) :
  Forall2 R l l' → (∀ i x y, R x y → f i x = g i y) → imap f l = imap g l'.
Proof.
  intros HR. revert f g. induction HR as [|x y l l' Hxy _ IH]; intros f g Hfg; [done|].
  rewrite !imap_cons. f_equal; [by apply Hfg|].
  apply IH. intros i a b Hab. by apply Hfg.
Qed.

Lemma filter_Forall2_same_text (l l' : list Message.t) :
  Forall2 same_text l l' →
  Forall2 same_text (filter not_system l) (filter not_system l').
Proof.
  induction 1 as [|x y l l' [Hr Hc] _ IH]; [constructor|].
  rewrite !filter_cons.
  destruct (decide (not_system x)) as [Hx|Hx], (decide (not_system y)) as [Hy|Hy];
    unfold not_system in Hx, Hy; rewrite Hr in Hx; try done.
  constructor; [by split|done].
Qed.

End Projection.

(** C2: for every conversation state [st], the projection has exactly one
    entry per message of [st] whose role is not 'system', in the order
    those messages have in [st], and no entry for a system message: the
    entries are, position by position, the displays of the messages
    kept; the messages kept are a sub-list of the messages of [st], none
    of them is a system message, and the messages left out are the
    system messages. *)
Theorem projection_is_non_system_messages (st : AIState.t) :
  Forall2 (λ m e, UIEntry.display e = display_of m)
          (kept st) (getUIStateFromAIState st)
  ∧ length (getUIStateFromAIState st) = length (kept st)
  ∧ (∀ i, getUIStateFromAIState st !! i = entry_at st i <$> kept st !! i)
  ∧ kept st `sublist_of` AIState.messages st
  ∧ Forall (λ m, Message.role m ≠ "system") (kept st)
  ∧ kept st ++ filter (λ m, Message.role m = "system") (AIState.messages st)
    ≡ₚ AIState.messages st
  ∧ (∀ m, m ∈ kept st ↔ m ∈ AIState.messages st ∧ Message.role m ≠ "system").
Proof.
  split_and!.
  - by apply Forall2_imap.
  - apply projection_length.
  - apply projection_lookup.
  - apply sublist_filter.
  - apply Forall_forall. by intros m [_ Hm]%kept_elem_of.
  - apply kept_complement.
  - apply kept_elem_of.
Qed.

Lemma entry_id_inj (chatId : string) (i j : nat) :
  chatId +:+ "-" +:+ pretty i = chatId +:+ "-" +:+ pretty j → i = j.
Proof.
  intros H. apply (inj (String.app chatId)), (inj (String.app "-")) in H.
  by apply (inj pretty) in H.
Qed.

Lemma projection_same_text (st st' : AIState.t) :
  AIState.chatId st' = AIState.chatId st →
  Forall2 same_text (AIState.messages st) (AIState.messages st') →
  getUIStateFromAIState st' = getUIStateFromAIState st.
Proof.
  intros Hid Hms. unfold getUIStateFromAIState. rewrite Hid. symmetry.
  apply (imap_Forall2_eq _ _ _ _ same_text).
  - by apply filter_Forall2_same_text.
  - intros i x y Hxy. f_equal. by apply display_of_same_text.
Qed.

Lemma projection_cons_kept (chatId : string) (m0 : Message.t)
    (rest : list Message.t) (i : nat) :
  not_system m0 →
  getUIStateFromAIState (AIState.mk chatId (m0 :: rest)) !! S i
  = entry_at (AIState.mk chatId rest) (S i)
      <$> kept (AIState.mk chatId rest) !! i.
Proof.
  intros Hm. rewrite projection_lookup. unfold kept. simpl.
  rewrite filter_cons. by destruct (decide (not_system m0)).
Qed.

(** C10: every entry of the projection has the id [chatId + "-" + i],
    [i] being its zero-based position in the filtered list; the ids of
    the messages are not read, so states with the same [chatId] whose
    messages agree on role and content (the same state in particular)
    project to equal values; and the entry of a message has another id
    once a non-system message before it is gone. *)
Theorem projection_ids_are_positions (st st' : AIState.t) (m0 : Message.t)
    (i : nat) (e : UIEntry.t) :
  AIState.chatId st' = AIState.chatId st →
  Forall2 same_text (AIState.messages st) (AIState.messages st') →
  not_system m0 →
  getUIStateFromAIState st !! i = Some e →
  UIEntry.id e = AIState.chatId st +:+ "-" +:+ pretty i
  ∧ getUIStateFromAIState st' = getUIStateFromAIState st
  ∧ ∃ e', getUIStateFromAIState
            (AIState.mk (AIState.chatId st) (m0 :: AIState.messages st)) !! S i
          = Some e'
        ∧ UIEntry.display e' = UIEntry.display e
        ∧ UIEntry.id e' = AIState.chatId st +:+ "-" +:+ pretty (S i)
        ∧ UIEntry.id e' ≠ UIEntry.id e.
Proof.
  intros Hid Hms Hm0 He.
  rewrite projection_lookup in He.
  destruct (kept st !! i) as [m|] eqn:Hk; [|done].
  injection He as <-.
  split; [done|]. split; [by apply projection_same_text|].
  exists (entry_at st (S i) m). split_and!; try done.
  - rewrite projection_cons_kept by done. destruct st as [c ms]. simpl in *.
    by rewrite Hk.
  - simpl. intros H%entry_id_inj. lia.
Qed.

Lemma projection_ids_are_positions_witness :
  UIEntry.id (UIEntry.mk "chat-1" (BotMessage (BotText "Try resting and hydrating")))
  = "chat-1"
  ∧ getUIStateFromAIState example_state_reissued
    = getUIStateFromAIState example_state
  ∧ ∃ e', getUIStateFromAIState
            (AIState.mk "chat"
               (Message.mk "m0" "user" (JS.Str "hello") None
                  :: AIState.messages example_state)) !! 2
          = Some e'
        ∧ UIEntry.display e' = BotMessage (BotText "Try resting and hydrating")
        ∧ UIEntry.id e' = "chat-2"
        ∧ UIEntry.id e' ≠ "chat-1".
Proof.
  apply (projection_ids_are_positions example_state example_state_reissued
           (Message.mk "m0" "user" (JS.Str "hello") None) 1
           (UIEntry.mk "chat-1" (BotMessage (BotText "Try resting and hydrating")))).
  - reflexivity.
  - repeat constructor.
  - unfold not_system. simpl. discriminate.
  - vm_compute. reflexivity.
Defined.

(** ** Strings: [substring(0, n)] *)

Section Substring.

Implicit Types (s : string) (n : nat).

Lemma take_length s n : String.length (JS.take n s) = n `min` String.length s.
Proof.
  revert n. induction s as [|c s IH]; intros [|n]; simpl; try done.
  by rewrite IH.
Qed.

Lemma take_drop s n : JS.take n s +:+ JS.drop n s = s.
Proof.
  revert n. induction s as [|c s IH]; intros [|n]; simpl; try done.
  change (String c (JS.take n s +:+ JS.drop n s) = String c s).
  by rewrite IH.
Qed.

Lemma take_all s n : (String.length s ≤ n)%nat → JS.take n s = s.
Proof.
  revert n. induction s as [|c s IH]; intros [|n] Hn; simpl in *; try done; try lia.
  rewrite IH; [done|lia].
Qed.

Lemma take_min s n : JS.take (n `min` String.length s) s = JS.take n s.
Proof.
  revert n. induction s as [|c s IH]; intros [|n]; simpl; try done.
  by rewrite IH.
Qed.

Lemma drop_0 s : JS.drop 0 s = s.
Proof. by destruct s. Qed.

(** [s.substring(0, n)] is the first [n] code units of [s]. *)
Lemma substring_0 s n : JS.substring 0 (Z.of_nat n) s = JS.take n s.
Proof.
  unfold JS.substring. cbv zeta.
  replace (Z.min (Z.max 0 0) (Z.of_nat (String.length s))) with 0%Z by lia.
  replace (Z.min (Z.max (Z.of_nat n) 0) (Z.of_nat (String.length s)))
    with (Z.of_nat (n `min` String.length s)) by lia.
  replace (Z.min 0 (Z.of_nat (n `min` String.length s))) with 0%Z by lia.
  replace (Z.max 0 (Z.of_nat (n `min` String.length s)))
    with (Z.of_nat (n `min` String.length s)) by lia.
  rewrite Nat2Z.id. change (Z.to_nat 0) with 0. by rewrite drop_0, take_min.
Qed.

End Substring.

(** ** Persistence *)

(** C7: when the session is absent or has no user, [onSetAIState]
    returns without calling [saveChat] and without throwing, whatever
    the state is. *)
Theorem unauthenticated_save_is_silent (session : option Session) (now : Z)
    (state : AIState.t) :
  session = None ∨ session = Some {| user := None |} →
  onSetAIState session now state = JS.Ok Returned.
Proof. by intros [-> | ->]. Qed.

Lemma unauthenticated_save_is_silent_witness :
  onSetAIState (Some {| user := None |}) 0 example_state = JS.Ok Returned.
Proof.
  apply unauthenticated_save_is_silent. right. reflexivity.
Defined.

(** C6: whenever [onSetAIState] calls [saveChat], the state it was given
    has at least one message, these are the messages saved, and the
    session has a user, whose id is the [userId] saved. *)
Theorem save_needs_message_and_user (session : option Session) (now : Z)
    (state : AIState.t) (chat : Chat.t) :
  onSetAIState session now state = JS.Ok (SaveChat chat) →
  AIState.messages state ≠ []
  ∧ 0 < length (Chat.messages chat)
  ∧ Chat.messages chat = AIState.messages state
  ∧ ∃ u, session = Some {| user := Some u |} ∧ Chat.userId chat = user_id u.
Proof.
  unfold onSetAIState. intros H.
  destruct session as [[[u|]]|]; try discriminate.
  destruct state as [chatId [|m ms]]; [discriminate|]. simpl in H.
  destruct (title_of (Message.content m)) as [t|err]; [|discriminate].
  injection H as <-. simpl. split_and!; try done; [lia|by exists u].
Qed.

Lemma save_needs_message_and_user_witness :
  AIState.messages example_state ≠ []
  ∧ 0 < length (Chat.messages example_chat)
  ∧ Chat.messages example_chat = AIState.messages example_state
  ∧ ∃ u, example_session = Some {| user := Some u |}
         ∧ Chat.userId example_chat = user_id u.
Proof.
  apply (save_needs_message_and_user example_session 1718409600000).
  vm_compute. reflexivity.
Defined.

(** The handler throws on a state without messages: [saveChat] is not
    reached. *)
Lemma save_empty_throws (u : User) (now : Z) (chatId : string) :
  ∃ err, onSetAIState (Some {| user := Some u |}) now (AIState.mk chatId [])
         = JS.Throw err.
Proof. by eexists. Qed.

Lemma title_of_string (s : string) :
  title_of (JS.Str s) = JS.Ok (JS.take 100 s).
Proof.
  unfold title_of. change 100%Z with (Z.of_nat 100). by rewrite substring_0.
Qed.

(** C9: for a state that is persisted and whose first message has a
    string content, [saveChat] is called, with a chat whose title is the
    first 100 characters of that content (the whole content when it has
    at most 100) and whose path is "/chat/" followed by the chatId. *)
Theorem saved_title_and_path (u : User) (now : Z) (state : AIState.t)
    (first : Message.t) (s : string) :
  AIState.messages state !! 0 = Some first →
  Message.content first = JS.Str s →
  ∃ chat,
    onSetAIState (Some {| user := Some u |}) now state = JS.Ok (SaveChat chat)
    ∧ Chat.title chat = JS.take 100 s
    ∧ String.length (Chat.title chat) = 100 `min` String.length s
    ∧ (∃ rest, s = Chat.title chat +:+ rest)
    ∧ ((String.length s ≤ 100)%nat → Chat.title chat = s)
    ∧ Chat.path chat = "/chat/" +:+ AIState.chatId state
    ∧ Chat.id chat = AIState.chatId state.
Proof.
  intros Hfirst Hs. unfold onSetAIState, first_content. rewrite Hfirst.
  cbn [mbind Result_bind JS.bind]. rewrite Hs, title_of_string.
  eexists. split; [done|]. cbn [Chat.title Chat.path Chat.id].
  split_and!; try done.
  - apply take_length.
  - exists (JS.drop 100 s). by rewrite take_drop.
  - apply take_all.
Qed.

Lemma saved_title_and_path_witness :
  ∃ chat,
    onSetAIState (Some {| user := Some {| user_id := Some "user-1" |} |})
      1718409600000 long_state = JS.Ok (SaveChat chat)
    ∧ Chat.title chat = JS.take 100 long_message
    ∧ String.length (Chat.title chat) = 100 `min` String.length long_message
    ∧ (∃ rest, long_message = Chat.title chat +:+ rest)
    ∧ ((String.length long_message ≤ 100)%nat → Chat.title chat = long_message)
    ∧ Chat.path chat = "/chat/" +:+ AIState.chatId long_state
    ∧ Chat.id chat = AIState.chatId long_state.
Proof.
  apply (saved_title_and_path {| user_id := Some "user-1" |} 1718409600000
           long_state (Message.mk "m1" "user" (JS.Str long_message) None)
           long_message); reflexivity.
Defined.

(** Scenario 4: a first message of 150 characters is saved under its
    first 100 characters. *)
Example title_of_long_message :
  String.length long_message = 150
  ∧ onSetAIState (Some {| user := Some {| user_id := Some "user-1" |} |})
      1718409600000 long_state
    = JS.Ok (SaveChat
        {| Chat.id := "chat";
           Chat.title :=
             "I have had a pounding headache behind my left eye since Monday morning, with nausea, blurred vision ";
           Chat.userId := Some "user-1"; Chat.createdAt := 1718409600000;
           Chat.messages := AIState.messages long_state;
           Chat.path := "/chat/chat" |}).
Proof. split; vm_compute; reflexivity. Qed.

(** ** The actions *)

Section ActionProperties.

Variable nanoid : nat → string.

Implicit Types (c : Ctx) (w : SubmitState) (a : ActionState).

(** *** [performAction] *)

Lemma summary_text_stringified action details json :
  JS.stringify details = JS.Ok json →
  summary_text action json = action_summary action details.
Proof. intros H. unfold action_summary, JS.stringified. by rewrite H. Qed.

Lemma performAction_close_open action a :
  StreamableUI.closed (performingAction a) = false →
  StreamableUI.closed (systemMessage a) = false →
  performAction_close action a = JS.Ok (closed_state action a).
Proof.
  intros Hp Hs. unfold performAction_close, StreamableUI.done.
  by rewrite Hp, Hs.
Qed.

Lemma performAction_close_inv action a a1 :
  performAction_close action a = JS.Ok a1 →
  StreamableUI.closed (performingAction a) = false
  ∧ StreamableUI.closed (systemMessage a) = false
  ∧ a1 = closed_state action a.
Proof.
  unfold performAction_close, StreamableUI.done.
  destruct (StreamableUI.closed (performingAction a)); [done|].
  destruct (StreamableUI.closed (systemMessage a)); [done|].
  by intros [= <-].
Qed.

Lemma performAction_record_closed action details a :
  performAction_record nanoid action details (closed_state action a)
  = match JS.stringify details with
    | JS.Ok _ => JS.Ok (finished_state nanoid action details a)
    | JS.Throw e => JS.Throw e
    end.
Proof.
  unfold performAction_record. cbn [fresh fst snd act_ctx closed_state].
  destruct (JS.stringify details) as [json|e] eqn:Hjson; [|done].
  cbn [mbind Result_bind JS.bind mret Result_ret].
  unfold finished_state, system_record. cbn [closed_state performingAction systemMessage].
  by rewrite <- (summary_text_stringified action details json Hjson).
Qed.

(** The terminal phase on open streams: it returns exactly when
    [JSON.stringify] does. *)
Lemma performAction_finish_open action details a :
  StreamableUI.closed (performingAction a) = false →
  StreamableUI.closed (systemMessage a) = false →
  performAction_finish nanoid action details a
  = match JS.stringify details with
    | JS.Ok _ => JS.Ok (finished_state nanoid action details a)
    | JS.Throw e => JS.Throw e
    end.
Proof.
  intros Hp Hs. unfold performAction_finish.
  rewrite performAction_close_open by done.
  cbn [mbind Result_bind JS.bind]. apply performAction_record_closed.
Qed.

Lemma performAction_finish_inv action details a a' :
  performAction_finish nanoid action details a = JS.Ok a' →
  StreamableUI.closed (performingAction a) = false
  ∧ StreamableUI.closed (systemMessage a) = false
  ∧ (∃ json, JS.stringify details = JS.Ok json)
  ∧ a' = finished_state nanoid action details a.
Proof.
  unfold performAction_finish.
  destruct (performAction_close action a) as [a1|e] eqn:Hc; [|done].
  apply performAction_close_inv in Hc as (Hp & Hs & ->).
  cbn [mbind Result_bind JS.bind]. rewrite performAction_record_closed.
  destruct (JS.stringify details) as [json|e]; [|done].
  intros [= <-]. split_and!; try done. by exists json.
Qed.

Lemma performAction_finish_stored action details a a' :
  performAction_finish nanoid action details a = JS.Ok a' →
  stored (act_ctx a')
  = stored (act_ctx a) ++ [system_record (nanoid (ids (act_ctx a))) action details].
Proof. by intros (_ & _ & _ & ->)%performAction_finish_inv. Qed.

Lemma performAction_working_stored action a a' :
  performAction_working action a = JS.Ok a' →
  stored (act_ctx a') = stored (act_ctx a)
  ∧ systemMessage a' = systemMessage a
  ∧ StreamableUI.closed (performingAction a') = false.
Proof.
  unfold performAction_working, StreamableUI.update.
  destruct (StreamableUI.closed (performingAction a)); [done|].
  by intros [= <-].
Qed.

End ActionProperties.

(** C3, as stated, fails: with a bigint as details,
    [JSON.stringify] throws and the task ends without a record. *)
Lemma action_always_recorded_fails : ¬ action_always_recorded.
Proof.
  intros H.
  destruct (H example_ids "check vitals" (JS.BigInt 1) empty_ctx)
    as (a & m & json & Hrun & _).
  discriminate Hrun.
Qed.

(** C3, amended: for every action name A and details value D, the
    background task of [performAction] reaches its terminal phase with
    nothing appended and closes both UI streams with their final
    nodes.  If [JSON.stringify(D)] returns, the task then appends
    exactly one message to the store, of role 'system' and with the
    content "[User performed action: " + A + ". Details: " +
    JSON.stringify(D) + "]".  If [JSON.stringify(D)] throws (a bigint,
    a circular structure), the task throws that error in this state
    and appends nothing. *)
Theorem performAction_appends_one_system_message (nanoid : nat → string)
    (action : string) (details : JS.Value) (c : Ctx) :
  let a0 := (performAction nanoid action details c).1 in
  ∃ a1 a2,
    performAction_working action a0 = JS.Ok a1
    ∧ performAction_close action a1 = JS.Ok a2
    ∧ stored (act_ctx a0) = stored c
    ∧ stored (act_ctx a1) = stored c
    ∧ stored (act_ctx a2) = stored c
    ∧ performingAction a2
      = {| StreamableUI.node :=
             StatusLine false ("Action " +:+ action +:+ " completed successfully.");
           StreamableUI.closed := true |}
    ∧ systemMessage a2
      = {| StreamableUI.node :=
             SystemMessage
               ("The action " +:+ action +:+ " has been completed successfully.");
           StreamableUI.closed := true |}
    ∧ match JS.stringify details with
      | JS.Ok json =>
          ∃ a3 m,
            performAction_record nanoid action details a2 = JS.Ok a3
            ∧ performAction_task nanoid action details a0 = JS.Ok a3
            ∧ stored (act_ctx a3) = stored c ++ [m]
            ∧ Message.role m = "system"
            ∧ Message.content m
              = JS.Str ("[User performed action: " +:+ action +:+ ". Details: "
                          +:+ JS.template json +:+ "]")
      | JS.Throw e =>
          performAction_record nanoid action details a2 = JS.Throw e
          ∧ performAction_task nanoid action details a0 = JS.Throw e
      end.
Proof.
  cbv zeta. do 2 eexists. split; [reflexivity|]. split; [reflexivity|].
  split_and!; try reflexivity.
  unfold performAction_task, performAction_finish, performAction_record.
  cbn [performAction performAction_working performAction_close fst snd fresh
       StreamableUI.update StreamableUI.done StreamableUI.create
       StreamableUI.closed performingAction systemMessage act_ctx
       mbind Result_bind JS.bind mret Result_ret].
  destruct (JS.stringify details) as [json|e]; [|done].
  cbn [mbind Result_bind JS.bind mret Result_ret].
  do 2 eexists. split_and!; reflexivity.
Qed.

(** Scenario 3: the record of [dispatch("check vitals", {bp: "120/80"})]. *)
Example check_vitals_summary :
  action_summary "check vitals" (JS.Obj [("bp", JS.Str "120/80")])
  = "[User performed action: check vitals"
      +:+ ". Details: {" +:+ JS.quote "bp" +:+ ":" +:+ JS.quote "120/80" +:+ "}]".
Proof. vm_compute. reflexivity. Qed.

(** *** [submitUserMessage] *)

Section SubmitProperties.

Variable nanoid : nat → string.

Implicit Types (c : Ctx) (w : SubmitState) (inc : Increment.t)
  (incs : list Increment.t).

Lemma submit_begin_stored content c :
  stored (sub_ctx (submit_begin nanoid content c).1)
  = stored c ++ [user_record (nanoid (ids c)) content].
Proof. done. Qed.

Lemma text_non_terminal inc w :
  non_terminal inc →
  StreamableValue.closed (stream_of w) = false →
  text nanoid inc w
  = JS.Ok ({| sub_ctx := sub_ctx w;
              textStream :=
                Some {| StreamableValue.current := Increment.delta inc;
                        StreamableValue.closed := false;
                        StreamableValue.emitted :=
                          StreamableValue.emitted (stream_of w)
                            ++ [Increment.delta inc] |};
              textNode := node_of w |}, node_of w).
Proof.
  unfold non_terminal, stream_of, node_of, text. intros -> Hopen.
  destruct (textStream w) as [s|]; simpl in *.
  - unfold StreamableValue.update. by rewrite Hopen.
  - done.
Qed.

Lemma text_terminal inc w :
  Increment.done inc = true →
  StreamableValue.closed (stream_of w) = false →
  text nanoid inc w
  = JS.Ok ({| sub_ctx :=
                ctx_done
                  (with_message
                     (assistant_record (nanoid (ids (sub_ctx w)))
                        (Increment.content inc)))
                  (fresh nanoid (sub_ctx w)).2;
              textStream :=
                Some {| StreamableValue.current :=
                          StreamableValue.current (stream_of w);
                        StreamableValue.closed := true;
                        StreamableValue.emitted :=
                          StreamableValue.emitted (stream_of w) |};
              textNode := node_of w |}, node_of w).
Proof.
  unfold stream_of, node_of, text. intros -> Hopen.
  destruct (textStream w) as [s|]; simpl in *.
  - unfold StreamableValue.done. by rewrite Hopen.
  - done.
Qed.

(** Whatever [text] is given, a call that returns leaves the stored
    messages in place and appends the assistant record, if any, behind
    them. *)
Lemma text_stored inc w w' node :
  text nanoid inc w = JS.Ok (w', node) →
  stored (sub_ctx w')
  = stored (sub_ctx w)
      ++ (if Increment.done inc
          then [assistant_record (nanoid (ids (sub_ctx w))) (Increment.content inc)]
          else []).
Proof.
  unfold text.
  destruct (textStream w) as [s|], (Increment.done inc); simpl;
    unfold StreamableValue.done, StreamableValue.update; simpl;
    try destruct (StreamableValue.closed s); simpl;
    intros [= <- _]; simpl; try done; by rewrite app_nil_r.
Qed.

Lemma deliver_app incs1 incs2 w :
  deliver nanoid (incs1 ++ incs2) w
  = w' ← deliver nanoid incs1 w; deliver nanoid incs2 w'.
Proof.
  revert w. induction incs1 as [|inc incs1 IH]; intros w; [done|].
  simpl. destruct (text nanoid inc w) as [[w1 n]|err]; [|done]. simpl. apply IH.
Qed.

Lemma deliver_stored incs w w' :
  deliver nanoid incs w = JS.Ok w' →
  stored (sub_ctx w) `prefix_of` stored (sub_ctx w').
Proof.
  revert w. induction incs as [|inc incs IH]; intros w; simpl.
  - by intros [= <-].
  - destruct (text nanoid inc w) as [[w1 n]|err] eqn:Ht; [|done]. simpl.
    intros Hd%IH. apply text_stored in Ht. etrans; [|exact Hd].
    rewrite Ht. by apply prefix_app_r.
Qed.

(** A run of non-terminal increments on an open stream: every delta
    replaces the held value. *)
Lemma deliver_non_terminal incs w :
  Forall non_terminal incs →
  StreamableValue.closed (stream_of w) = false →
  ∃ w', deliver nanoid incs w = JS.Ok w'
        ∧ sub_ctx w' = sub_ctx w
        ∧ node_of w' = node_of w
        ∧ StreamableValue.closed (stream_of w') = false
        ∧ StreamableValue.current (stream_of w')
          = default (StreamableValue.current (stream_of w)) (last (deltas incs))
        ∧ StreamableValue.emitted (stream_of w')
          = StreamableValue.emitted (stream_of w) ++ deltas incs.
Proof.
  intros Hincs. revert w.
  induction Hincs as [|inc incs Hinc _ IH]; intros w Hopen.
  - exists w. simpl. by rewrite app_nil_r.
  - simpl. rewrite text_non_terminal by done. simpl.
    edestruct IH as (w' & -> & Hc & Hn & Ho & Hcur & Hem); [|exists w'; split_and!; try done].
    + done.
    + rewrite Hcur. unfold stream_of at 1. simpl. unfold deltas. simpl.
      by destruct (last (Increment.delta <$> incs)) eqn:Hl;
        rewrite ?last_cons, ?Hl.
    + rewrite Hem. unfold stream_of at 1. simpl. by rewrite <- app_assoc.
Qed.

End SubmitProperties.

(** A whole stream: non-terminal increments followed by a terminal one,
    delivered to a call that has not created its stream yet. *)
Lemma deliver_stream (nanoid : nat → string) (incs : list Increment.t)
    (t : Increment.t) (w : SubmitState) :
  Forall non_terminal incs →
  Increment.done t = true →
  textStream w = None →
  deliver nanoid (incs ++ [t]) w
  = JS.Ok {| sub_ctx :=
               ctx_done
                 (with_message
                    (assistant_record (nanoid (ids (sub_ctx w)))
                       (Increment.content t)))
                 (fresh nanoid (sub_ctx w)).2;
             textStream :=
               Some {| StreamableValue.current :=
                         default EmptyString (last (deltas incs));
                       StreamableValue.closed := true;
                       StreamableValue.emitted := EmptyString :: deltas incs |};
             textNode := Some (BotMessage BotStream) |}.
Proof.
  intros Hincs Ht Hw. rewrite deliver_app.
  destruct (deliver_non_terminal nanoid incs w Hincs)
    as (w' & -> & Hc & Hn & Ho & Hcur & Hem).
  { unfold stream_of. by rewrite Hw. }
  cbn [mbind Result_bind JS.bind deliver]. rewrite text_terminal by done.
  cbn [mbind Result_bind JS.bind mret Result_ret fst].
  rewrite Hc, Hn, Hcur, Hem. unfold stream_of, node_of. by rewrite Hw.
Qed.

(** C1, as stated, fails: after the deltas "Try " and "resting" the
    stream is closed holding "resting", not "Try resting". *)
Lemma stream_holds_full_content_fails : ¬ stream_holds_full_content.
Proof.
  intros H.
  specialize (H example_ids two_deltas two_deltas_end
                {| sub_ctx := empty_ctx; textStream := None; textNode := None |}).
  rewrite deliver_stream in H by (by repeat constructor).
  specialize (H _ _ ltac:(by repeat constructor) eq_refl eq_refl eq_refl
                eq_refl eq_refl).
  discriminate H.
Qed.

(** C1, amended: for every increment sequence that ends in a terminal
    increment, the callback closes the stream; the value the stream
    holds at close is the delta of the last non-terminal increment (the
    empty string when there is none), because each delta replaces the
    held value; the values the stream has held are the initial empty
    string and the deltas, in order, and their concatenation is the full
    content of the terminal increment whenever that content is the
    concatenation of the deltas. *)
Theorem stream_at_close (nanoid : nat → string) (incs : list Increment.t)
    (t : Increment.t) (w : SubmitState) :
  Forall non_terminal incs →
  Increment.done t = true →
  textStream w = None →
  ∃ w' s,
    deliver nanoid (incs ++ [t]) w = JS.Ok w'
    ∧ textStream w' = Some s
    ∧ StreamableValue.closed s = true
    ∧ StreamableValue.current s = default EmptyString (last (deltas incs))
    ∧ StreamableValue.emitted s = EmptyString :: deltas incs
    ∧ (Increment.content t = concat_strings (deltas incs) →
       StreamableValue.received s = Increment.content t).
Proof.
  intros Hincs Ht Hw. rewrite deliver_stream by done.
  do 2 eexists. split_and!; [done..|].
  intros ->. reflexivity.
Qed.

Lemma stream_at_close_witness :
  ∃ w' s,
    deliver example_ids (two_deltas ++ [two_deltas_end])
      {| sub_ctx := empty_ctx; textStream := None; textNode := None |}
    = JS.Ok w'
    ∧ textStream w' = Some s
    ∧ StreamableValue.closed s = true
    ∧ StreamableValue.current s = default EmptyString (last (deltas two_deltas))
    ∧ StreamableValue.emitted s = EmptyString :: deltas two_deltas
    ∧ (Increment.content two_deltas_end = concat_strings (deltas two_deltas) →
       StreamableValue.received s = Increment.content two_deltas_end).
Proof.
  apply (stream_at_close example_ids two_deltas two_deltas_end
           {| sub_ctx := empty_ctx; textStream := None; textNode := None |}).
  - repeat constructor.
  - reflexivity.
  - reflexivity.
Defined.

(** C8: the history [submitUserMessage] sends to the model is built from
    every message of the store, the new user message included, in store
    order, as (role, content, name) and without filtering on the role:
    the records of earlier messages, system ones among them, are all
    in it. *)
Theorem model_history_has_every_message (nanoid : nat → string)
    (content : string) (c : Ctx) :
  let w := (submit_begin nanoid content c).1 in
  let opts := (submit_begin nanoid content c).2 in
  messages opts = to_core <$> stored (sub_ctx w)
  ∧ stored (sub_ctx w) = stored c ++ [user_record (nanoid (ids c)) content]
  ∧ length (messages opts) = S (length (stored c))
  ∧ Forall2 (λ m h, CoreMessage.role h = Message.role m
                    ∧ CoreMessage.content h = Message.content m
                    ∧ CoreMessage.name h = Message.name m)
            (stored (sub_ctx w)) (messages opts)
  ∧ (∀ i m, stored c !! i = Some m → messages opts !! i = Some (to_core m))
  ∧ (∀ m, m ∈ stored c → Message.role m = "system" →
          to_core m ∈ messages opts
          ∧ CoreMessage.role (to_core m) = "system").
Proof.
  cbv zeta.
  assert (messages (submit_begin nanoid content c).2
          = to_core <$> stored (sub_ctx (submit_begin nanoid content c).1))
    as -> by done.
  rewrite submit_begin_stored. split_and!.
  - done.
  - done.
  - rewrite length_fmap, length_app. simpl. lia.
  - apply Forall2_fmap_r, Forall_Forall2_diag, Forall_forall. done.
  - intros i m Hm. rewrite list_lookup_fmap.
    by rewrite lookup_app_l_Some with (x := m).
  - intros m Hm Hr. split; [|done].
    apply list_elem_of_fmap. exists m. split; [done|].
    apply elem_of_app. by left.
Qed.

(** [streamUI] consuming a run that [text] accepts throughout. *)
Lemma consume_deliver (nanoid : nat → string) (incs : list Increment.t)
    (w w' : SubmitState) (finished : bool) :
  deliver nanoid incs w = JS.Ok w' →
  consume nanoid finished incs w
  = (w', if ends_terminal finished incs then None else Some JS.ModelError).
Proof.
  revert w finished. induction incs as [|inc incs IH]; intros w finished.
  - by intros [= <-].
  - simpl. destruct (text nanoid inc w) as [[w1 n]|err];
      cbn [mbind Result_bind JS.bind fst]; [|intros H; discriminate H].
    intros Hd%(IH _ (Increment.done inc)).
    rewrite Hd. unfold ends_terminal. destruct incs as [|inc' incs]; [done|].
    rewrite last_cons_cons.
    destruct (last (inc' :: incs)) eqn:Hl; [done|]. by apply last_None in Hl.
Qed.

Lemma ends_terminal_snoc (finished : bool) (incs : list Increment.t)
    (t : Increment.t) :
  ends_terminal finished (incs ++ [t]) = Increment.done t.
Proof. unfold ends_terminal. by rewrite last_snoc. Qed.

Lemma ends_terminal_non_terminal (incs : list Increment.t) :
  Forall non_terminal incs → ends_terminal false incs = false.
Proof.
  unfold ends_terminal. intros Hincs.
  destruct (last incs) as [inc|] eqn:Hl; [|done]. simpl.
  apply last_Some_elem_of in Hl. by apply (proj1 (Forall_forall _ _) Hincs).
Qed.

(** The store keeps its messages through any run, caught throws
    included. *)
Lemma consume_stored (nanoid : nat → string) (incs : list Increment.t)
    (w : SubmitState) (finished : bool) :
  stored (sub_ctx w)
    `prefix_of` stored (sub_ctx (consume nanoid finished incs w).1).
Proof.
  revert w finished. induction incs as [|inc incs IH]; intros w finished; [done|].
  simpl. destruct (text nanoid inc w) as [[w1 n]|err] eqn:Ht; [|done].
  apply text_stored in Ht. etrans; [|apply IH]. rewrite Ht.
  by apply prefix_app_r.
Qed.

(** [submitUserMessage] in terms of the run of [streamUI]. *)
Lemma submitUserMessage_consume (nanoid : nat → string) (content : string)
    (incs : list Increment.t) (c : Ctx) :
  submitUserMessage nanoid content incs c
  = JS.Ok ((consume nanoid false incs (stream_start nanoid content c)).1,
           (submit_begin nanoid content c).2,
           {| UIEntry.id := nanoid (S (ids c));
              UIEntry.display :=
                match (consume nanoid false incs (stream_start nanoid content c)).2 with
                | None =>
                    default SpinnerMessage
                      (textNode (consume nanoid false incs
                                   (stream_start nanoid content c)).1)
                | Some e => UIError e
                end |}).
Proof.
  unfold submitUserMessage, submitUserMessage_on, stream_start.
  cbn [submit_begin fresh fst snd sub_ctx textStream textNode initial].
  by destruct (consume _ _ _ _) as [w' failure].
Qed.

(** A whole call whose stream ends in a terminal increment: the store
    gains the user record and the assistant record, in this order. *)
Lemma submitUserMessage_stream (nanoid : nat → string) (content : string)
    (incs : list Increment.t) (t : Increment.t) (c : Ctx) :
  Forall non_terminal incs →
  Increment.done t = true →
  ∃ w opts e,
    submitUserMessage nanoid content (incs ++ [t]) c = JS.Ok (w, opts, e)
    ∧ stored (sub_ctx w)
      = stored c ++ [ user_record (nanoid (ids c)) content;
                      assistant_record (nanoid (S (S (ids c)))) (Increment.content t) ]
    ∧ AIState.chatId (MutableAIState.get (aiState (sub_ctx w)))
      = AIState.chatId (MutableAIState.get (aiState c)).
Proof.
  intros Hincs Ht. rewrite submitUserMessage_consume.
  rewrite (consume_deliver _ _ _ _ _
             (deliver_stream nanoid incs t (stream_start nanoid content c)
                Hincs Ht eq_refl)).
  do 3 eexists. split; [reflexivity|]. split; [|done].
  cbn. by rewrite <- app_assoc.
Qed.

(** C4: from a state without messages, [submitUserMessage("I have a
    headache")] followed by a model stream that completes with the full
    content "Try resting and hydrating" leaves exactly two messages in
    the store: the user message "I have a headache", then the assistant
    message "Try resting and hydrating". *)
Theorem headache_scenario (nanoid : nat → string) (chatId : string)
    (finalized : bool) (n : nat) (incs : list Increment.t) (t : Increment.t) :
  Forall non_terminal incs →
  Increment.done t = true →
  Increment.content t = "Try resting and hydrating" →
  ∃ w opts e,
    submitUserMessage nanoid "I have a headache" (incs ++ [t])
      {| aiState := {| MutableAIState.state := AIState.mk chatId [];
                       MutableAIState.finalized := finalized |};
         ids := n |}
    = JS.Ok (w, opts, e)
    ∧ stored (sub_ctx w)
      = [ user_record (nanoid n) "I have a headache";
          assistant_record (nanoid (S (S n))) "Try resting and hydrating" ]
    ∧ (λ m, (Message.role m, Message.content m)) <$> stored (sub_ctx w)
      = [ ("user", JS.Str "I have a headache");
          ("assistant", JS.Str "Try resting and hydrating") ].
Proof.
  intros Hincs Ht Hcontent.
  edestruct (submitUserMessage_stream nanoid "I have a headache" incs t)
    as (w & opts & e & Hrun & Hstored & _); [done..|].
  exists w, opts, e. split; [exact Hrun|].
  rewrite Hstored, Hcontent. done.
Qed.

Lemma headache_scenario_witness :
  ∃ w opts e,
    submitUserMessage example_ids "I have a headache"
      (headache_stream ++ [headache_end]) empty_ctx
    = JS.Ok (w, opts, e)
    ∧ stored (sub_ctx w)
      = [ user_record (example_ids 0) "I have a headache";
          assistant_record (example_ids 2) "Try resting and hydrating" ]
    ∧ (λ m, (Message.role m, Message.content m)) <$> stored (sub_ctx w)
      = [ ("user", JS.Str "I have a headache");
          ("assistant", JS.Str "Try resting and hydrating") ].
Proof.
  apply (headache_scenario example_ids "chat" false 0 headache_stream
           headache_end).
  - repeat constructor.
  - reflexivity.
  - reflexivity.
Defined.

Lemma submitUserMessage_stored (nanoid : nat → string) (content : string)
    (incs : list Increment.t) (c : Ctx) (w : SubmitState)
    (opts : StreamUIOptions) (e : UIEntry.t) :
  submitUserMessage nanoid content incs c = JS.Ok (w, opts, e) →
  stored c `prefix_of` stored (sub_ctx w).
Proof.
  rewrite submitUserMessage_consume. intros [= <- _ _].
  etrans; [|apply consume_stored]. by apply prefix_app_r.
Qed.

Lemma performAction_task_stored (nanoid : nat → string) (action : string)
    (details : JS.Value) (a a' : ActionState) :
  performAction_task nanoid action details a = JS.Ok a' →
  stored (act_ctx a')
  = stored (act_ctx a) ++ [system_record (nanoid (ids (act_ctx a))) action details].
Proof.
  unfold performAction_task.
  destruct (performAction_working action a) as [a1|err] eqn:Hw; [|done].
  cbn [mbind Result_bind JS.bind]. intros Hf%performAction_finish_stored.
  unfold performAction_working, StreamableUI.update in Hw.
  destruct (StreamableUI.closed (performingAction a)); [done|].
  injection Hw as <-. exact Hf.
Qed.

(** C5: each operation that changes the store keeps the messages stored
    before it, unchanged and in their order, as a prefix of the new
    list: the user append and the assistant append of
    [submitUserMessage] and the system append of [performAction] add one
    message at the end, and the other steps leave the list as it is. *)
Theorem appends_keep_earlier_messages (nanoid : nat → string) :
  (∀ content c,
     stored (sub_ctx (submit_begin nanoid content c).1)
     = stored c ++ [user_record (nanoid (ids c)) content])
  ∧ (∀ inc w w' node,
       text nanoid inc w = JS.Ok (w', node) →
       stored (sub_ctx w')
       = stored (sub_ctx w)
           ++ (if Increment.done inc
               then [assistant_record (nanoid (ids (sub_ctx w)))
                       (Increment.content inc)]
               else []))
  ∧ (∀ action details a a',
       performAction_finish nanoid action details a = JS.Ok a' →
       stored (act_ctx a')
       = stored (act_ctx a)
           ++ [system_record (nanoid (ids (act_ctx a))) action details])
  ∧ (∀ action details c,
       stored (act_ctx (performAction nanoid action details c).1) = stored c)
  ∧ (∀ action a a',
       performAction_working action a = JS.Ok a' →
       stored (act_ctx a') = stored (act_ctx a))
  ∧ (∀ content incs c w opts e,
       submitUserMessage nanoid content incs c = JS.Ok (w, opts, e) →
       stored c `prefix_of` stored (sub_ctx w))
  ∧ (∀ action details a a',
       performAction_task nanoid action details a = JS.Ok a' →
       stored (act_ctx a) `prefix_of` stored (act_ctx a')).
Proof.
  split_and!.
  - apply submit_begin_stored.
  - apply text_stored.
  - apply performAction_finish_stored.
  - done.
  - intros action a a' H. by apply performAction_working_stored in H as [? _].
  - apply submitUserMessage_stored.
  - intros action details a a' H%performAction_task_stored. rewrite H.
    by apply prefix_app_r.
Qed.

(** * Further properties *)

(** ** The projection and the append-only store *)

Lemma kept_with_message (st : AIState.t) (m : Message.t) :
  kept (with_message m st)
  = kept st ++ (if decide (Message.role m = "system") then [] else [m]).
Proof.
  unfold kept, with_message. simpl. rewrite filter_app, filter_cons, filter_nil.
  destruct (decide (not_system m)) as [Hm|Hm],
           (decide (Message.role m = "system")) as [Hs|Hs];
    unfold not_system in Hm; done.
Qed.

(** X1: appending a message to a state leaves every entry of its
    projection as it was, id and display, and adds at most one entry
    behind them: none for a system message, otherwise the entry of the
    new message, numbered with the count of messages kept before. *)
Theorem projection_after_append (st : AIState.t) (m : Message.t) :
  getUIStateFromAIState (with_message m st)
  = getUIStateFromAIState st
      ++ (if decide (Message.role m = "system") then []
          else [entry_at st (length (kept st)) m]).
Proof.
  unfold getUIStateFromAIState.
  change (filter not_system (AIState.messages (with_message m st)))
    with (kept (with_message m st)).
  rewrite kept_with_message, imap_app. fold (kept st). f_equal.
  destruct (decide (Message.role m = "system")); [done|].
  simpl. unfold entry_at. by rewrite Nat.add_0_r.
Qed.

Lemma projection_id_lookup (st : AIState.t) (i : nat) (x : string) :
  (UIEntry.id <$> getUIStateFromAIState st) !! i = Some x →
  x = AIState.chatId st +:+ "-" +:+ pretty i.
Proof.
  rewrite list_lookup_fmap, projection_lookup.
  destruct (kept st !! i) as [m|]; [|done]. by intros [= <-].
Qed.

(** X2: the ids of the entries of a projection are pairwise distinct. *)
Theorem projection_ids_distinct (st : AIState.t) :
  NoDup (UIEntry.id <$> getUIStateFromAIState st).
Proof.
  apply NoDup_alt. intros i j x Hi%projection_id_lookup Hj%projection_id_lookup.
  subst x. by apply entry_id_inj in Hj.
Qed.

Lemma display_of_cases (m : Message.t) :
  (Message.role m = "user" ∧ display_of m = UserMessage (Message.content m))
  ∨ (∃ s, Message.role m = "assistant" ∧ Message.content m = JS.Str s
          ∧ display_of m = BotMessage (BotText s))
  ∨ (Message.role m ≠ "user"
     ∧ (Message.role m = "assistant" → ∀ s, Message.content m ≠ JS.Str s)
     ∧ display_of m = NullNode).
Proof.
  unfold display_of.
  destruct (decide (Message.role m = "user")) as [Hu|Hu]; [by left|].
  destruct (decide (Message.role m = "assistant")) as [Ha|Ha].
  - destruct (Message.content m) eqn:Hc;
      try (right; right; split_and!; by try done).
    right; left. by eexists.
  - right; right. split_and!; done.
Qed.

(** X3: every entry of a projection shows a stored message that is not
    a system message: the content of a user message, the finished text
    of an assistant message whose content is a string, or nothing (the
    null node) for an assistant message of another content and for a
    message of any other role.  No entry shows a live stream, a spinner
    or a system text. *)
Theorem projection_displays (st : AIState.t) :
  Forall (λ e,
            ∃ m, m ∈ AIState.messages st ∧ Message.role m ≠ "system"
              ∧ ((Message.role m = "user"
                  ∧ UIEntry.display e = UserMessage (Message.content m))
                 ∨ (∃ s, Message.role m = "assistant"
                         ∧ Message.content m = JS.Str s
                         ∧ UIEntry.display e = BotMessage (BotText s))
                 ∨ (Message.role m ≠ "user"
                    ∧ (Message.role m = "assistant" →
                       ∀ s, Message.content m ≠ JS.Str s)
                    ∧ UIEntry.display e = NullNode)))
         (getUIStateFromAIState st).
Proof.
  apply Forall_lookup. intros i e He. rewrite projection_lookup in He.
  destruct (kept st !! i) as [m|] eqn:Hk; [|done]. injection He as <-.
  apply list_elem_of_lookup_2, kept_elem_of in Hk as [Hin Hns].
  exists m. split_and!; [done..|]. apply display_of_cases.
Qed.

(** ** [performAction] *)

Section ActionRuns.

Variable nanoid : nat → string.

Implicit Types (c : Ctx) (a : ActionState).

(** The state in the store of a context. *)
Lemma performAction_finish_state action details a a' :
  performAction_finish nanoid action details a = JS.Ok a' →
  MutableAIState.get (aiState (act_ctx a'))
  = with_message (system_record (nanoid (ids (act_ctx a))) action details)
      (MutableAIState.get (aiState (act_ctx a)))
  ∧ StreamableUI.closed (performingAction a') = true
  ∧ StreamableUI.closed (systemMessage a') = true.
Proof. by intros (_ & _ & _ & ->)%performAction_finish_inv. Qed.

Lemma performAction_run action details json c :
  JS.stringify details = JS.Ok json →
  performAction_task nanoid action details
    (performAction nanoid action details c).1
  = JS.Ok
      {| act_ctx :=
           ctx_done
             (with_message (system_record (nanoid (S (ids c))) action details))
             (fresh nanoid (fresh nanoid c).2).2;
         performingAction :=
           {| StreamableUI.node :=
                StatusLine false ("Action " +:+ action +:+ " completed successfully.");
              StreamableUI.closed := true |};
         systemMessage :=
           {| StreamableUI.node :=
                SystemMessage
                  ("The action " +:+ action +:+ " has been completed successfully.");
              StreamableUI.closed := true |} |}.
Proof.
  intros Hjson. unfold performAction_task.
  cbn [performAction performAction_working fst snd fresh
       StreamableUI.update StreamableUI.create StreamableUI.closed
       performingAction systemMessage act_ctx mbind Result_bind JS.bind
       mret Result_ret].
  rewrite performAction_finish_open by done. by rewrite Hjson.
Qed.

Lemma projection_with_system_message (st : AIState.t) (m : Message.t) :
  Message.role m = "system" →
  getUIStateFromAIState (with_message m st) = getUIStateFromAIState st.
Proof.
  intros Hm. unfold getUIStateFromAIState.
  change (filter not_system (AIState.messages (with_message m st)))
    with (kept (with_message m st)).
  rewrite kept_with_message. destruct (decide _); [|done].
  by rewrite app_nil_r.
Qed.

End ActionRuns.

(** X4: the record an action appends never shows in the projection,
    and is sent to the model: when [JSON.stringify] serializes the
    details, then after the background task of [performAction] the
    store has one message more, the projection of the store is what it
    was before the action, and the history of a following
    [submitUserMessage] contains the record. *)
Theorem performAction_hidden_from_projection (nanoid : nat → string)
    (action : string) (details : JS.Value) (json : option string)
    (content : string) (c : Ctx) :
  JS.stringify details = JS.Ok json →
  ∃ a',
    performAction_task nanoid action details
      (performAction nanoid action details c).1 = JS.Ok a'
    ∧ length (stored (act_ctx a')) = S (length (stored c))
    ∧ getUIStateFromAIState (MutableAIState.get (aiState (act_ctx a')))
      = getUIStateFromAIState (MutableAIState.get (aiState c))
    ∧ {| CoreMessage.role := "system";
         CoreMessage.content :=
           JS.Str ("[User performed action: " +:+ action +:+ ". Details: "
                     +:+ JS.template json +:+ "]");
         CoreMessage.name := None |}
      ∈ messages (submit_begin nanoid content (act_ctx a')).2.
Proof.
  intros Hjson. rewrite (performAction_run nanoid action details json c Hjson).
  eexists. split; [done|]. split_and!.
  - unfold stored. simpl. rewrite length_app. simpl. lia.
  - simpl. by apply projection_with_system_message.
  - change (messages (submit_begin nanoid content ?x).2)
      with (to_core <$> stored (sub_ctx (submit_begin nanoid content x).1)).
    rewrite submit_begin_stored. apply list_elem_of_fmap.
    exists (system_record (nanoid (S (ids c))) action details). split.
    + unfold to_core, system_record. cbn [Message.role Message.content Message.name].
      by rewrite <- (summary_text_stringified action details json Hjson).
    + apply elem_of_app. left.
      change (stored (ctx_done (with_message ?m) ?x)) with (stored x ++ [m]).
      apply elem_of_app. right. by apply list_elem_of_singleton.
Qed.

Lemma performAction_hidden_from_projection_witness :
  ∃ a',
    performAction_task example_ids "check vitals" (JS.Obj [("bp", JS.Str "120/80")])
      (performAction example_ids "check vitals" (JS.Obj [("bp", JS.Str "120/80")])
         (Build_Ctx (MutableAIState.mk example_state false) 3)).1 = JS.Ok a'
    ∧ length (stored (act_ctx a'))
      = S (length (stored (Build_Ctx (MutableAIState.mk example_state false) 3)))
    ∧ getUIStateFromAIState (MutableAIState.get (aiState (act_ctx a')))
      = getUIStateFromAIState
          (MutableAIState.get
             (aiState (Build_Ctx (MutableAIState.mk example_state false) 3)))
    ∧ {| CoreMessage.role := "system";
         CoreMessage.content :=
           JS.Str ("[User performed action: " +:+ "check vitals" +:+ ". Details: "
                     +:+ JS.template
                           (Some ("{" +:+ JS.quote "bp" +:+ ":"
                                      +:+ JS.quote "120/80" +:+ "}"))
                     +:+ "]");
         CoreMessage.name := None |}
      ∈ messages (submit_begin example_ids "Thanks" (act_ctx a')).2.
Proof.
  apply (performAction_hidden_from_projection example_ids "check vitals"
           (JS.Obj [("bp", JS.Str "120/80")])).
  vm_compute. reflexivity.
Defined.

(** X5: the terminal phase of an action cannot run twice: once
    [performAction_finish] has returned, both UI streams are closed, a
    second run of the terminal phase throws at the first [done] and a
    further status update throws at [update], so no second record is
    appended. *)
Theorem performAction_finish_once (nanoid : nat → string)
    (action action' : string) (details details' : JS.Value)
    (a a' : ActionState) :
  performAction_finish nanoid action details a = JS.Ok a' →
  StreamableUI.closed (performingAction a') = true
  ∧ StreamableUI.closed (systemMessage a') = true
  ∧ performAction_finish nanoid action' details' a'
    = JS.Throw (JS.StreamClosed ".done()")
  ∧ performAction_working action' a' = JS.Throw (JS.StreamClosed ".update()")
  ∧ performAction_task nanoid action' details' a'
    = JS.Throw (JS.StreamClosed ".update()").
Proof.
  intros (_ & Hp & Hs)%performAction_finish_state.
  unfold performAction_task, performAction_finish, performAction_close,
    performAction_working, StreamableUI.done, StreamableUI.update.
  by rewrite Hp.
Qed.

Lemma performAction_finish_once_witness :
  let a' :=
    {| act_ctx :=
         ctx_done (with_message (system_record (example_ids 1) "check vitals" JS.Null))
           (fresh example_ids (fresh example_ids empty_ctx).2).2;
       performingAction :=
         {| StreamableUI.node :=
              StatusLine false "Action check vitals completed successfully.";
            StreamableUI.closed := true |};
       systemMessage :=
         {| StreamableUI.node :=
              SystemMessage "The action check vitals has been completed successfully.";
            StreamableUI.closed := true |} |} in
  StreamableUI.closed (performingAction a') = true
  ∧ StreamableUI.closed (systemMessage a') = true
  ∧ performAction_finish example_ids "check vitals" JS.Null a'
    = JS.Throw (JS.StreamClosed ".done()")
  ∧ performAction_working "check vitals" a' = JS.Throw (JS.StreamClosed ".update()")
  ∧ performAction_task example_ids "check vitals" JS.Null a'
    = JS.Throw (JS.StreamClosed ".update()").
Proof.
  apply (performAction_finish_once example_ids "check vitals" "check vitals"
           JS.Null JS.Null
           {| act_ctx := (fresh example_ids empty_ctx).2;
              performingAction :=
                StreamableUI.create
                  (StatusLine true "Performing action: check vitals... working on it...");
              systemMessage := StreamableUI.create NullNode |}).
  reflexivity.
Defined.

(** ** [submitUserMessage] *)

Section StreamRuns.

Variable nanoid : nat → string.

Implicit Types (c : Ctx) (w : SubmitState) (inc : Increment.t)
  (incs : list Increment.t).

(** On a closed stream the callback throws, whatever the increment. *)
Lemma text_closed inc w s :
  textStream w = Some s →
  StreamableValue.closed s = true →
  text nanoid inc w
  = JS.Throw (JS.StreamClosed (if Increment.done inc then ".done()" else ".update()")).
Proof.
  intros Hw Hs. unfold text, StreamableValue.done, StreamableValue.update.
  rewrite Hw, Hs. by destruct (Increment.done inc).
Qed.

(** A terminal increment that is accepted leaves the stream closed. *)
Lemma text_terminal_closes inc w w' node :
  Increment.done inc = true →
  text nanoid inc w = JS.Ok (w', node) →
  ∃ s, textStream w' = Some s ∧ StreamableValue.closed s = true.
Proof.
  intros Hd. unfold text, StreamableValue.done. rewrite Hd.
  destruct (textStream w) as [s|]; simpl.
  - destruct (StreamableValue.closed s); [done|]. intros [= <- _]. by eexists.
  - intros [= <- _]. by eexists.
Qed.

Lemma deliver_after_terminal incs1 t inc incs2 w :
  Increment.done t = true →
  ∃ err, deliver nanoid (incs1 ++ t :: inc :: incs2) w = JS.Throw err.
Proof.
  intros Ht. rewrite deliver_app.
  destruct (deliver nanoid incs1 w) as [w1|err]; [|by eexists].
  cbn [mbind Result_bind JS.bind deliver].
  destruct (text nanoid t w1) as [[w2 n]|err] eqn:Htext; [|by eexists].
  apply text_terminal_closes in Htext as (s & Hs & Hc); [|done].
  cbn [mbind Result_bind JS.bind fst].
  rewrite (text_closed inc w2 s Hs Hc). by eexists.
Qed.

(** A call whose stream breaks off before a terminal increment. *)
Lemma submitUserMessage_open incs content c :
  Forall non_terminal incs →
  ∃ w opts e,
    submitUserMessage nanoid content incs c = JS.Ok (w, opts, e)
    ∧ sub_ctx w
      = (fresh nanoid (ctx_update
                         (with_message (user_record (nanoid (ids c)) content))
                         (fresh nanoid c).2)).2
    ∧ StreamableValue.closed (stream_of w) = false
    ∧ StreamableValue.current (stream_of w)
      = default EmptyString (last (deltas incs))
    ∧ UIEntry.display e = UIError JS.ModelError.
Proof.
  intros Hincs. rewrite submitUserMessage_consume.
  destruct (deliver_non_terminal nanoid incs (stream_start nanoid content c) Hincs)
    as (w' & Hd & Hc & _ & Ho & Hcur & _); [done|].
  rewrite (consume_deliver _ _ _ _ _ Hd), ends_terminal_non_terminal by done.
  do 3 eexists. split; [reflexivity|]. cbn [fst snd UIEntry.display].
  split_and!; [exact Hc|exact Ho| |done].
  rewrite Hcur. done.
Qed.

End StreamRuns.

(** X6: nothing can follow a terminal increment: whatever the state and
    the increments before it, a delivery in which an increment comes
    after a terminal one throws, so a call that returns has appended at
    most one assistant message. *)
Theorem no_increment_after_terminal (nanoid : nat → string)
    (incs1 incs2 : list Increment.t) (t inc : Increment.t) (w : SubmitState) :
  Increment.done t = true →
  ∃ err, deliver nanoid (incs1 ++ t :: inc :: incs2) w = JS.Throw err.
Proof. apply deliver_after_terminal. Qed.

Lemma no_increment_after_terminal_witness :
  ∃ err,
    deliver example_ids (two_deltas ++ two_deltas_end :: two_deltas_end :: [])
      {| sub_ctx := empty_ctx; textStream := None; textNode := None |}
    = JS.Throw err.
Proof.
  apply (no_increment_after_terminal example_ids two_deltas [] two_deltas_end
           two_deltas_end).
  reflexivity.
Defined.

(** X7: a model stream that breaks off before its terminal increment
    leaves no assistant message: the call returns, the UI stream it
    has returned is ended with the error, the store holds the messages
    it had and the user message, nothing else, and the text stream, if
    one was created, is still open.  When the model call is rejected
    at once, the call throws that error, after the user message was
    appended. *)
Theorem no_terminal_no_assistant_message (nanoid : nat → string)
    (content : string) (incs : list Increment.t) (err : JS.Error) (c : Ctx) :
  Forall non_terminal incs →
  (∃ w opts e,
     submitUserMessage nanoid content incs c = JS.Ok (w, opts, e)
     ∧ stored (sub_ctx w) = stored c ++ [user_record (nanoid (ids c)) content]
     ∧ (∀ s, textStream w = Some s → StreamableValue.closed s = false)
     ∧ UIEntry.display e = UIError JS.ModelError)
  ∧ submitUserMessage_on nanoid content (Rejected err) c = JS.Throw err
  ∧ stored (sub_ctx (submit_begin nanoid content c).1)
    = stored c ++ [user_record (nanoid (ids c)) content].
Proof.
  intros Hincs. split; [|done].
  destruct (submitUserMessage_open nanoid incs content c Hincs)
    as (w & opts & e & Hrun & Hctx & Hopen & _ & He).
  exists w, opts, e. split; [done|]. split_and!.
  - by rewrite Hctx.
  - intros s Hs. unfold stream_of in Hopen. by rewrite Hs in Hopen.
  - done.
Qed.

Lemma no_terminal_no_assistant_message_witness :
  (∃ w opts e,
     submitUserMessage example_ids "I have a headache" two_deltas empty_ctx
     = JS.Ok (w, opts, e)
     ∧ stored (sub_ctx w)
       = stored empty_ctx
           ++ [user_record (example_ids (ids empty_ctx)) "I have a headache"]
     ∧ (∀ s, textStream w = Some s → StreamableValue.closed s = false)
     ∧ UIEntry.display e = UIError JS.ModelError)
  ∧ submitUserMessage_on example_ids "I have a headache" (Rejected JS.ModelError)
      empty_ctx = JS.Throw JS.ModelError
  ∧ stored (sub_ctx (submit_begin example_ids "I have a headache" empty_ctx).1)
    = stored empty_ctx
        ++ [user_record (example_ids (ids empty_ctx)) "I have a headache"].
Proof.
  apply (no_terminal_no_assistant_message example_ids "I have a headache"
           two_deltas JS.ModelError empty_ctx).
  repeat constructor.
Defined.

Lemma text_non_terminal_ctx (nanoid : nat → string) (inc : Increment.t)
    (w w' : SubmitState) (node : option ReactNode) :
  Increment.done inc = false →
  text nanoid inc w = JS.Ok (w', node) →
  sub_ctx w' = sub_ctx w.
Proof.
  intros Hd. unfold text, StreamableValue.update. rewrite Hd.
  destruct (textStream w) as [s|]; simpl;
    try destruct (StreamableValue.closed s); by intros [= <- _].
Qed.

(** X8: a delivery that returns has its terminal increment, if any, in
    last position, and has appended the assistant message of that
    increment and nothing else: either no increment is terminal and the
    store is unchanged, or the increments are non-terminal ones followed
    by one terminal increment, whose content is the one message
    appended. *)
Theorem delivery_ends_at_terminal (nanoid : nat → string)
    (incs : list Increment.t) (w w' : SubmitState) :
  deliver nanoid incs w = JS.Ok w' →
  (Forall non_terminal incs ∧ sub_ctx w' = sub_ctx w)
  ∨ (∃ pre t,
       incs = pre ++ [t] ∧ Forall non_terminal pre ∧ Increment.done t = true
       ∧ stored (sub_ctx w')
         = stored (sub_ctx w)
             ++ [assistant_record (nanoid (ids (sub_ctx w))) (Increment.content t)]).
Proof.
  revert w. induction incs as [|inc incs IH]; intros w; simpl.
  - intros [= <-]. by left.
  - destruct (text nanoid inc w) as [[w1 n]|err] eqn:Ht; [|done].
    cbn [mbind Result_bind JS.bind fst]. intros Hd.
    destruct (Increment.done inc) eqn:Hinc.
    + right. destruct incs as [|inc' incs].
      * injection Hd as <-. exists [], inc. split_and!; try done.
        apply text_stored in Ht. by rewrite Hinc in Ht.
      * destruct (deliver_after_terminal nanoid [] inc inc' incs w Hinc) as [err He].
        change (deliver nanoid ([] ++ inc :: inc' :: incs) w)
          with (r ← text nanoid inc w; deliver nanoid (inc' :: incs) r.1) in He.
        rewrite Ht in He. cbn [mbind Result_bind JS.bind fst] in He.
        rewrite Hd in He. discriminate He.
    + pose proof (text_non_terminal_ctx _ _ _ _ _ Hinc Ht) as Hctx.
      apply IH in Hd as [[Hall Hc]|(pre & t & -> & Hpre & Ht' & Hst)].
      * left. split; [by constructor|congruence].
      * right. exists (inc :: pre), t. split_and!; try done; [by constructor|].
        by rewrite Hst, Hctx.
Qed.

Lemma delivery_ends_at_terminal_witness :
  let w := {| sub_ctx := empty_ctx; textStream := None; textNode := None |} in
  let w' :=
    {| sub_ctx :=
         ctx_done (with_message (assistant_record (example_ids 0) "Try resting"))
           (fresh example_ids empty_ctx).2;
       textStream :=
         Some {| StreamableValue.current := "resting";
                 StreamableValue.closed := true;
                 StreamableValue.emitted := [EmptyString; "Try "; "resting"] |};
       textNode := Some (BotMessage BotStream) |} in
  (Forall non_terminal (two_deltas ++ [two_deltas_end]) ∧ sub_ctx w' = sub_ctx w)
  ∨ (∃ pre t,
       two_deltas ++ [two_deltas_end] = pre ++ [t]
       ∧ Forall non_terminal pre ∧ Increment.done t = true
       ∧ stored (sub_ctx w')
         = stored (sub_ctx w)
             ++ [assistant_record (example_ids (ids (sub_ctx w))) (Increment.content t)]).
Proof.
  apply (delivery_ends_at_terminal example_ids (two_deltas ++ [two_deltas_end])).
  vm_compute. reflexivity.
Defined.

(** ** Whole calls *)

(** The result of a call whose stream ends in a terminal increment. *)
Lemma submitUserMessage_complete (nanoid : nat → string) (content : string)
    (incs : list Increment.t) (t : Increment.t) (c : Ctx) :
  Forall non_terminal incs →
  Increment.done t = true →
  ∃ w opts e,
    submitUserMessage nanoid content (incs ++ [t]) c = JS.Ok (w, opts, e)
    ∧ MutableAIState.get (aiState (sub_ctx w))
      = with_message
          (assistant_record (nanoid (S (S (ids c)))) (Increment.content t))
          (with_message (user_record (nanoid (ids c)) content)
             (MutableAIState.get (aiState c)))
    ∧ ids (sub_ctx w) = S (S (S (ids c)))
    ∧ e = {| UIEntry.id := nanoid (S (ids c));
             UIEntry.display := BotMessage BotStream |}
    ∧ opts = (submit_begin nanoid content c).2.
Proof.
  intros Hincs Ht. rewrite submitUserMessage_consume.
  rewrite (consume_deliver _ _ _ _ _
             (deliver_stream nanoid incs t (stream_start nanoid content c)
                Hincs Ht eq_refl)), ends_terminal_snoc, Ht.
  do 3 eexists. split; [reflexivity|]. done.
Qed.

Lemma ids_drawn_append (nanoid : nat → string) `{!Inj (=) (=) nanoid}
    (old : list Message.t) (news : list Message.t) (n n' : nat) :
  (n ≤ n')%nat →
  NoDup (Message.id <$> old) →
  (∀ m, m ∈ old → ∃ k, k < n ∧ Message.id m = nanoid k) →
  NoDup (Message.id <$> news) →
  (∀ m, m ∈ news → ∃ k, (n ≤ k < n')%nat ∧ Message.id m = nanoid k) →
  NoDup (Message.id <$> (old ++ news))
  ∧ ∀ m, m ∈ old ++ news → ∃ k, k < n' ∧ Message.id m = nanoid k.
Proof.
  intros Hn Hold Hbound Hnews Hnew. split.
  - rewrite fmap_app. apply NoDup_app. split_and!; [done| |done].
    intros x (m & -> & Hm)%list_elem_of_fmap (m' & Heq & Hm')%list_elem_of_fmap.
    apply Hbound in Hm as (k & Hk & Hid). apply Hnew in Hm' as (k' & Hk' & Hid').
    rewrite Hid, Hid' in Heq. apply (inj nanoid) in Heq. lia.
  - intros m [Hm|Hm]%elem_of_app.
    + apply Hbound in Hm as (k & Hk & Hid). exists k. split; [lia|done].
    + apply Hnew in Hm as (k & Hk & Hid). exists k. split; [lia|done].
Qed.

Lemma example_ids_inj : Inj (=) (=) example_ids.
Proof.
  intros i j H. unfold example_ids in H.
  apply (inj (String.app "id-")) in H. by apply (inj pretty) in H.
Qed.

Lemma stored_get (c : Ctx) (st : AIState.t) :
  MutableAIState.get (aiState c) = st → stored c = AIState.messages st.
Proof. by intros <-. Qed.

(** X9: as long as [nanoid] never returns the same id twice, the ids of
    the stored messages stay pairwise distinct through a whole
    [submitUserMessage] call and through a whole [performAction] call
    (one whose details [JSON.stringify] serializes), and the id of the
    UI entry each of them returns is the id of no stored message. *)
Theorem message_ids_stay_distinct (nanoid : nat → string) (content : string)
    (incs : list Increment.t) (t : Increment.t) (action : string)
    (details : JS.Value) (json : option string) (c : Ctx) :
  Inj (=) (=) nanoid →
  ids_drawn nanoid c →
  Forall non_terminal incs →
  Increment.done t = true →
  JS.stringify details = JS.Ok json →
  (∃ w opts e,
     submitUserMessage nanoid content (incs ++ [t]) c = JS.Ok (w, opts, e)
     ∧ ids_drawn nanoid (sub_ctx w)
     ∧ UIEntry.id e ∉ Message.id <$> stored (sub_ctx w))
  ∧ (∃ a',
       performAction_task nanoid action details
         (performAction nanoid action details c).1 = JS.Ok a'
       ∧ ids_drawn nanoid (act_ctx a')
       ∧ UIEntry.id (newMessage (performAction nanoid action details c).2)
           ∉ Message.id <$> stored (act_ctx a')).
Proof.
  intros Hinj [Hnodup Hbound] Hincs Ht Hjson. split.
  - destruct (submitUserMessage_complete nanoid content incs t c Hincs Ht)
      as (w & opts & e & Hrun & Hst & Hids & He & _).
    exists w, opts, e. split; [exact Hrun|]. rewrite He.
    apply stored_get in Hst. simpl in Hst. rewrite <- app_assoc in Hst.
    fold (stored c) in Hst. simpl in Hst.
    destruct (ids_drawn_append nanoid (stored c)
                [user_record (nanoid (ids c)) content;
                 assistant_record (nanoid (S (S (ids c)))) (Increment.content t)]
                (ids c) (S (S (S (ids c))))) as [Hnd Hb]; try done.
    { lia. }
    { simpl. apply NoDup_cons. split; [|apply NoDup_singleton].
      intros H%list_elem_of_singleton%(inj nanoid). lia. }
    { intros m [->|Hm]%elem_of_cons.
      - exists (ids c). split; [lia|done].
      - apply list_elem_of_singleton in Hm as ->.
        exists (S (S (ids c))). split; [lia|done]. }
    split.
    + unfold ids_drawn. rewrite Hst, Hids. done.
    + rewrite Hst. simpl. intros (m & Hid & Hm)%list_elem_of_fmap.
      apply elem_of_app in Hm as [Hm|Hm].
      * apply Hbound in Hm as (k' & Hk' & Hid'). rewrite Hid' in Hid.
        apply (inj nanoid) in Hid. lia.
      * apply elem_of_cons in Hm as [->|Hm].
        -- simpl in Hid. apply (inj nanoid) in Hid. lia.
        -- apply list_elem_of_singleton in Hm as ->. simpl in Hid.
           apply (inj nanoid) in Hid. lia.
  - rewrite (performAction_run nanoid action details json c Hjson).
    eexists. split; [done|].
    destruct (ids_drawn_append nanoid (stored c)
                [system_record (nanoid (S (ids c))) action details]
                (ids c) (S (S (ids c)))) as [Hnd Hb]; try done.
    { lia. }
    { simpl. apply NoDup_singleton. }
    { intros m ->%list_elem_of_singleton. exists (S (ids c)). split; [lia|done]. }
    split; [done|].
    simpl. intros (m & Hid & Hm)%list_elem_of_fmap.
    change (m ∈ stored c ++ [system_record (nanoid (S (ids c))) action details]) in Hm.
    apply elem_of_app in Hm as [Hm|Hm].
    + apply Hbound in Hm as (k' & Hk' & Hid'). rewrite Hid' in Hid.
      apply (inj nanoid) in Hid. lia.
    + apply list_elem_of_singleton in Hm as ->. simpl in Hid.
      apply (inj nanoid) in Hid. lia.
Qed.

Lemma turn_ctx_ids_drawn : ids_drawn example_ids turn_ctx.
Proof.
  split.
  - apply (bool_decide_unpack _). vm_compute. reflexivity.
  - intros m [->|Hm]%elem_of_cons.
    + exists 0. split; [simpl; lia|reflexivity].
    + apply list_elem_of_singleton in Hm as ->.
      exists 2. split; [simpl; lia|reflexivity].
Defined.

Lemma message_ids_stay_distinct_witness :
  (∃ w opts e,
     submitUserMessage example_ids "Thanks"
       (two_deltas ++ [two_deltas_end]) turn_ctx = JS.Ok (w, opts, e)
     ∧ ids_drawn example_ids (sub_ctx w)
     ∧ UIEntry.id e ∉ Message.id <$> stored (sub_ctx w))
  ∧ (∃ a',
       performAction_task example_ids "check vitals" JS.Null
         (performAction example_ids "check vitals" JS.Null turn_ctx).1 = JS.Ok a'
       ∧ ids_drawn example_ids (act_ctx a')
       ∧ UIEntry.id (newMessage (performAction example_ids "check vitals" JS.Null
                                   turn_ctx).2)
           ∉ Message.id <$> stored (act_ctx a')).
Proof.
  apply (message_ids_stay_distinct example_ids "Thanks" two_deltas
           two_deltas_end "check vitals" JS.Null (Some "null") turn_ctx).
  - exact example_ids_inj.
  - exact turn_ctx_ids_drawn.
  - repeat constructor.
  - reflexivity.
  - reflexivity.
Defined.

(** ** Persistence and restoration *)

Lemma onSetAIState_authenticated (u : User) (now : Z) (st : AIState.t) :
  onSetAIState (Some {| user := Some u |}) now st
  = (firstMessageContent ← first_content (AIState.messages st);
     title ← title_of firstMessageContent;
     mret (SaveChat {| Chat.id := AIState.chatId st; Chat.title := title;
                       Chat.userId := user_id u; Chat.createdAt := now;
                       Chat.messages := AIState.messages st;
                       Chat.path := "/chat/" +:+ AIState.chatId st |})).
Proof. done. Qed.

Lemma onSetAIState_string_first (u : User) (now : Z) (st : AIState.t)
    (first : Message.t) (s : string) :
  AIState.messages st !! 0 = Some first →
  Message.content first = JS.Str s →
  onSetAIState (Some {| user := Some u |}) now st
  = JS.Ok (SaveChat {| Chat.id := AIState.chatId st;
                       Chat.title := JS.take 100 s;
                       Chat.userId := user_id u; Chat.createdAt := now;
                       Chat.messages := AIState.messages st;
                       Chat.path := "/chat/" +:+ AIState.chatId st |}).
Proof.
  intros Hfirst Hs. rewrite onSetAIState_authenticated. unfold first_content.
  rewrite Hfirst. cbn [mbind Result_bind JS.bind]. by rewrite Hs, title_of_string.
Qed.

Lemma onSetAIState_saved (session : option Session) (now : Z) (st : AIState.t)
    (chat : Chat.t) :
  onSetAIState session now st = JS.Ok (SaveChat chat) →
  ∃ u first s,
    session = Some {| user := Some u |}
    ∧ AIState.messages st !! 0 = Some first
    ∧ Message.content first = JS.Str s
    ∧ chat = {| Chat.id := AIState.chatId st; Chat.title := JS.take 100 s;
                Chat.userId := user_id u; Chat.createdAt := now;
                Chat.messages := AIState.messages st;
                Chat.path := "/chat/" +:+ AIState.chatId st |}.
Proof.
  destruct session as [[[u|]]|]; try discriminate.
  rewrite onSetAIState_authenticated. unfold first_content.
  destruct (AIState.messages st !! 0) as [first|] eqn:Hfirst; [|discriminate].
  cbn [mbind Result_bind JS.bind].
  destruct (Message.content first) as [| | | | | | |s| | | | |] eqn:Hs; try discriminate.
  rewrite title_of_string. cbn [mbind Result_bind JS.bind mret Result_ret].
  intros [= <-]. by exists u, first, s.
Qed.

(** X10: [onSetAIState] throws exactly when the session has a user and
    the state cannot give a title: it has no message, or the content of
    its first message is not a string.  In these cases nothing is
    saved. *)
Theorem save_throws_iff (session : option Session) (now : Z) (st : AIState.t) :
  (∃ err, onSetAIState session now st = JS.Throw err)
  ↔ (∃ u, session = Some {| user := Some u |})
    ∧ (AIState.messages st = []
       ∨ ∃ first, AIState.messages st !! 0 = Some first
                  ∧ ∀ s, Message.content first ≠ JS.Str s).
Proof.
  split.
  - intros [err H]. destruct session as [[[u|]]|]; try discriminate.
    split; [by exists u|]. rewrite onSetAIState_authenticated in H.
    unfold first_content in H.
    destruct (AIState.messages st) as [|first ms] eqn:Hms; [by left|].
    right. exists first. split; [done|]. intros s Hs. simpl in H.
    rewrite Hs, title_of_string in H. discriminate.
  - intros [[u ->] [Hms|(first & Hfirst & Hs)]];
      rewrite onSetAIState_authenticated; unfold first_content.
    + rewrite Hms. by eexists.
    + rewrite Hfirst. cbn [mbind Result_bind JS.bind].
      destruct (Message.content first) as [| | | | | | |s| | | | |] eqn:Hc;
        try (by eexists). by destruct (Hs s).
Qed.

(** X11: once a state has been saved, saving the state again after an
    append succeeds and gives a chat with the same id, title, path and
    user and with the messages of the first chat followed by the new
    message; [createdAt] is the clock reading of each save, not the
    time of the first one. *)
Theorem save_after_append (session : option Session) (now now' : Z)
    (st : AIState.t) (m : Message.t) (chat : Chat.t) :
  onSetAIState session now st = JS.Ok (SaveChat chat) →
  ∃ chat',
    onSetAIState session now' (with_message m st) = JS.Ok (SaveChat chat')
    ∧ Chat.id chat' = Chat.id chat
    ∧ Chat.title chat' = Chat.title chat
    ∧ Chat.path chat' = Chat.path chat
    ∧ Chat.userId chat' = Chat.userId chat
    ∧ Chat.messages chat' = Chat.messages chat ++ [m]
    ∧ Chat.createdAt chat = now
    ∧ Chat.createdAt chat' = now'.
Proof.
  intros (u & first & s & -> & Hfirst & Hs & ->)%onSetAIState_saved.
  eexists. split.
  - apply (onSetAIState_string_first u now' (with_message m st) first s); [|done].
    simpl. by apply lookup_app_l_Some.
  - done.
Qed.

Lemma save_after_append_witness :
  ∃ chat',
    onSetAIState example_session 1718409660000%Z
      (with_message (Message.mk "m4" "user" (JS.Str "Thanks") None) example_state)
    = JS.Ok (SaveChat chat')
    ∧ Chat.id chat' = Chat.id example_chat
    ∧ Chat.title chat' = Chat.title example_chat
    ∧ Chat.path chat' = Chat.path example_chat
    ∧ Chat.userId chat' = Chat.userId example_chat
    ∧ Chat.messages chat'
      = Chat.messages example_chat ++ [Message.mk "m4" "user" (JS.Str "Thanks") None]
    ∧ Chat.createdAt example_chat = 1718409600000%Z
    ∧ Chat.createdAt chat' = 1718409660000%Z.
Proof.
  apply (save_after_append example_session 1718409600000%Z 1718409660000%Z
           example_state).
  vm_compute. reflexivity.
Defined.

(** X12: restoration and persistence are gated alike.  For a state that
    is present, [onGetUIState] returns [undefined] exactly when
    [onSetAIState] returns without saving, that is when the session is
    absent or has no user; when it returns a value, the value is the
    projection of the state; without a state it returns [undefined]. *)
Theorem restore_and_save_gated_alike (session : option Session) (now : Z)
    (st : AIState.t) :
  (onGetUIState session (Some st) = None
   ↔ onSetAIState session now st = JS.Ok Returned)
  ∧ (onGetUIState session (Some st) = None
     ↔ session = None ∨ session = Some {| user := None |})
  ∧ (∀ ui, onGetUIState session (Some st) = Some ui →
           ui = getUIStateFromAIState st)
  ∧ onGetUIState session None = None.
Proof.
  destruct session as [[[u|]]|].
  - split_and!.
    + split; [intros H; discriminate H|].
      rewrite onSetAIState_authenticated. unfold first_content.
      destruct (AIState.messages st !! 0) as [first|]; [|done].
      cbn [mbind Result_bind JS.bind].
      by destruct (title_of (Message.content first)).
    + split; [intros H; discriminate H|]. by intros [|].
    + by intros ui [= <-].
    + done.
  - split_and!; try done. split; [|done]. by right.
  - split_and!; try done. split; [|done]. by left.
Qed.

(** X13: a chat is titled by its first message.  After a whole
    [submitUserMessage] call on a store without messages, saving the
    store under a session with a user writes a chat whose title is the
    first 100 characters of the user's text and whose messages are the
    user message and the assistant message. *)
Theorem first_user_message_titles_chat (nanoid : nat → string) (u : User)
    (now : Z) (content : string) (incs : list Increment.t) (t : Increment.t)
    (c : Ctx) :
  stored c = [] →
  Forall non_terminal incs →
  Increment.done t = true →
  ∃ w opts e,
    submitUserMessage nanoid content (incs ++ [t]) c = JS.Ok (w, opts, e)
    ∧ onSetAIState (Some {| user := Some u |}) now
        (MutableAIState.get (aiState (sub_ctx w)))
      = JS.Ok (SaveChat
          {| Chat.id := AIState.chatId (MutableAIState.get (aiState c));
             Chat.title := JS.take 100 content;
             Chat.userId := user_id u;
             Chat.createdAt := now;
             Chat.messages :=
               [ user_record (nanoid (ids c)) content;
                 assistant_record (nanoid (S (S (ids c)))) (Increment.content t) ];
             Chat.path :=
               "/chat/" +:+ AIState.chatId (MutableAIState.get (aiState c)) |}).
Proof.
  intros Hempty Hincs Ht.
  destruct (submitUserMessage_complete nanoid content incs t c Hincs Ht)
    as (w & opts & e & Hrun & Hst & _).
  exists w, opts, e. split; [exact Hrun|]. rewrite Hst.
  unfold stored, MutableAIState.get in Hempty.
  rewrite (onSetAIState_string_first u now _ (user_record (nanoid (ids c)) content)
             content).
  - unfold with_message, MutableAIState.get. simpl. by rewrite Hempty.
  - unfold with_message, MutableAIState.get. simpl. by rewrite Hempty.
  - done.
Qed.

Lemma first_user_message_titles_chat_witness :
  ∃ w opts e,
    submitUserMessage example_ids long_message (two_deltas ++ [two_deltas_end])
      empty_ctx = JS.Ok (w, opts, e)
    ∧ onSetAIState (Some {| user := Some {| user_id := Some "user-1" |} |})
        1718409600000 (MutableAIState.get (aiState (sub_ctx w)))
      = JS.Ok (SaveChat
          {| Chat.id := AIState.chatId (MutableAIState.get (aiState empty_ctx));
             Chat.title := JS.take 100 long_message;
             Chat.userId := user_id {| user_id := Some "user-1" |};
             Chat.createdAt := 1718409600000;
             Chat.messages :=
               [ user_record (example_ids (ids empty_ctx)) long_message;
                 assistant_record (example_ids (S (S (ids empty_ctx))))
                   (Increment.content two_deltas_end) ];
             Chat.path :=
               "/chat/" +:+ AIState.chatId (MutableAIState.get (aiState empty_ctx)) |}).
Proof.
  apply (first_user_message_titles_chat example_ids
           {| user_id := Some "user-1" |} 1718409600000 long_message two_deltas
           two_deltas_end empty_ctx).
  - reflexivity.
  - repeat constructor.
  - reflexivity.
Defined.

(** X14: a chat that starts with an action.  After [performAction] on
    the initial state, with details that [JSON.stringify] serializes,
    the restored UI is still the initial, empty one, while saving the
    store writes a chat of one system message whose title is taken
    from the record of the action: it starts with
    "[User performed action: ". *)
Theorem action_first_chat (nanoid : nat → string) (u : User) (now : Z)
    (action : string) (details : JS.Value) (json : option string)
    (chatId : string) (c : Ctx) :
  MutableAIState.get (aiState c) = initialAIState chatId →
  JS.stringify details = JS.Ok json →
  ∃ a' rest,
    performAction_task nanoid action details
      (performAction nanoid action details c).1 = JS.Ok a'
    ∧ getUIStateFromAIState (MutableAIState.get (aiState (act_ctx a')))
      = initialUIState
    ∧ onSetAIState (Some {| user := Some u |}) now
        (MutableAIState.get (aiState (act_ctx a')))
      = JS.Ok (SaveChat
          {| Chat.id := chatId;
             Chat.title := JS.take 100 (summary_text action json);
             Chat.userId := user_id u;
             Chat.createdAt := now;
             Chat.messages :=
               [ {| Message.id := nanoid (S (ids c)); Message.role := "system";
                    Message.content := JS.Str (summary_text action json);
                    Message.name := None |} ];
             Chat.path := "/chat/" +:+ chatId |})
    ∧ JS.take 100 (summary_text action json)
      = "[User performed action: " +:+ rest.
Proof.
  intros Hinit Hjson.
  rewrite (performAction_run nanoid action details json c Hjson). eexists.
  exists (JS.take 76 (action +:+ ". Details: " +:+ JS.template json +:+ "]")).
  split; [reflexivity|].
  assert (MutableAIState.get
            (aiState
               (ctx_done
                  (with_message (system_record (nanoid (S (ids c))) action details))
                  (fresh nanoid (fresh nanoid c).2).2))
          = with_message (system_record (nanoid (S (ids c))) action details)
              (initialAIState chatId)) as Hst.
  { rewrite <- Hinit. done. }
  cbn [act_ctx]. rewrite Hst. split_and!.
  - rewrite projection_with_system_message by done. done.
  - rewrite (onSetAIState_string_first u now _
               (system_record (nanoid (S (ids c))) action details)
               (action_summary action details)); [|done..].
    unfold system_record.
    by rewrite <- (summary_text_stringified action details json Hjson).
  - reflexivity.
Qed.

Lemma action_first_chat_witness :
  ∃ a' rest,
    performAction_task example_ids "check vitals" (JS.Obj [("bp", JS.Str "120/80")])
      (performAction example_ids "check vitals" (JS.Obj [("bp", JS.Str "120/80")])
         empty_ctx).1 = JS.Ok a'
    ∧ getUIStateFromAIState (MutableAIState.get (aiState (act_ctx a')))
      = initialUIState
    ∧ onSetAIState (Some {| user := Some {| user_id := Some "user-1" |} |})
        1718409600000%Z (MutableAIState.get (aiState (act_ctx a')))
      = JS.Ok (SaveChat
          {| Chat.id := "chat";
             Chat.title :=
               JS.take 100
                 (summary_text "check vitals"
                    (Some ("{" +:+ JS.quote "bp" +:+ ":" +:+ JS.quote "120/80" +:+ "}")));
             Chat.userId := user_id {| user_id := Some "user-1" |};
             Chat.createdAt := 1718409600000%Z;
             Chat.messages :=
               [ {| Message.id := example_ids (S (ids empty_ctx));
                    Message.role := "system";
                    Message.content :=
                      JS.Str
                        (summary_text "check vitals"
                           (Some ("{" +:+ JS.quote "bp" +:+ ":"
                                      +:+ JS.quote "120/80" +:+ "}")));
                    Message.name := None |} ];
             Chat.path := "/chat/" +:+ "chat" |})
    ∧ JS.take 100
        (summary_text "check vitals"
           (Some ("{" +:+ JS.quote "bp" +:+ ":" +:+ JS.quote "120/80" +:+ "}")))
      = "[User performed action: " +:+ rest.
Proof.
  apply (action_first_chat example_ids {| user_id := Some "user-1" |}
           1718409600000%Z "check vitals" (JS.Obj [("bp", JS.Str "120/80")])
           (Some ("{" +:+ JS.quote "bp" +:+ ":" +:+ JS.quote "120/80" +:+ "}"))
           "chat" empty_ctx).
  - reflexivity.
  - vm_compute. reflexivity.
Defined.

Lemma projection_snoc (st : AIState.t) (m : Message.t) :
  Message.role m ≠ "system" →
  getUIStateFromAIState (with_message m st)
  = getUIStateFromAIState st ++ [entry_at st (length (kept st)) m]
  ∧ length (kept (with_message m st)) = S (length (kept st)).
Proof.
  intros Hm. unfold getUIStateFromAIState.
  change (filter not_system (AIState.messages (with_message m st)))
    with (kept (with_message m st)).
  rewrite kept_with_message. destruct (decide _); [done|]. split.
  - rewrite imap_app. fold (kept st). f_equal. simpl. unfold entry_at.
    by rewrite Nat.add_0_r.
  - rewrite length_app. simpl. lia.
Qed.

(** X15: after a whole [submitUserMessage] call the projection of the
    store is the projection before the call followed by two entries:
    the user's text, then the full content of the terminal increment as
    a finished text, numbered after the entries that were there. *)
Theorem projection_after_submit (nanoid : nat → string) (content : string)
    (incs : list Increment.t) (t : Increment.t) (c : Ctx) :
  Forall non_terminal incs →
  Increment.done t = true →
  let st := MutableAIState.get (aiState c) in
  let k := length (getUIStateFromAIState st) in
  ∃ w opts e,
    submitUserMessage nanoid content (incs ++ [t]) c = JS.Ok (w, opts, e)
    ∧ getUIStateFromAIState (MutableAIState.get (aiState (sub_ctx w)))
      = getUIStateFromAIState st
          ++ [ {| UIEntry.id := AIState.chatId st +:+ "-" +:+ pretty k;
                  UIEntry.display := UserMessage (JS.Str content) |};
               {| UIEntry.id := AIState.chatId st +:+ "-" +:+ pretty (S k);
                  UIEntry.display := BotMessage (BotText (Increment.content t)) |} ].
Proof.
  intros Hincs Ht st k.
  destruct (submitUserMessage_complete nanoid content incs t c Hincs Ht)
    as (w & opts & e & Hrun & Hst & _).
  exists w, opts, e. split; [exact Hrun|]. rewrite Hst. fold st.
  destruct (projection_snoc st (user_record (nanoid (ids c)) content))
    as [Hu Hlen]; [done|].
  destruct (projection_snoc
              (with_message (user_record (nanoid (ids c)) content) st)
              (assistant_record (nanoid (S (S (ids c)))) (Increment.content t)))
    as [Ha _]; [done|].
  rewrite Ha, Hu, Hlen, <- app_assoc. unfold k. rewrite projection_length.
  done.
Qed.

Lemma projection_after_submit_witness :
  let st := MutableAIState.get (aiState empty_ctx) in
  let k := length (getUIStateFromAIState st) in
  ∃ w opts e,
    submitUserMessage example_ids "I have a headache"
      (headache_stream ++ [headache_end]) empty_ctx = JS.Ok (w, opts, e)
    ∧ getUIStateFromAIState (MutableAIState.get (aiState (sub_ctx w)))
      = getUIStateFromAIState st
          ++ [ {| UIEntry.id := AIState.chatId st +:+ "-" +:+ pretty k;
                  UIEntry.display := UserMessage (JS.Str "I have a headache") |};
               {| UIEntry.id := AIState.chatId st +:+ "-" +:+ pretty (S k);
                  UIEntry.display :=
                    BotMessage (BotText (Increment.content headache_end)) |} ].
Proof.
  apply (projection_after_submit example_ids "I have a headache" headache_stream
           headache_end empty_ctx).
  - repeat constructor.
  - reflexivity.
Defined.

(** X16: the reply of one call is part of the history of the next.  A
    second [submitUserMessage] on the store a first whole call has left
    sends the model the earlier messages, then the first user message,
    the full content of the first terminal increment as an assistant
    message, and the second user message, in this order. *)
Theorem next_call_history (nanoid : nat → string) (content1 content2 : string)
    (incs : list Increment.t) (t : Increment.t) (c : Ctx) :
  Forall non_terminal incs →
  Increment.done t = true →
  ∃ w opts e,
    submitUserMessage nanoid content1 (incs ++ [t]) c = JS.Ok (w, opts, e)
    ∧ messages (submit_begin nanoid content2 (sub_ctx w)).2
      = (to_core <$> stored c)
          ++ [ {| CoreMessage.role := "user";
                  CoreMessage.content := JS.Str content1;
                  CoreMessage.name := None |};
               {| CoreMessage.role := "assistant";
                  CoreMessage.content := JS.Str (Increment.content t);
                  CoreMessage.name := None |};
               {| CoreMessage.role := "user";
                  CoreMessage.content := JS.Str content2;
                  CoreMessage.name := None |} ].
Proof.
  intros Hincs Ht.
  destruct (submitUserMessage_complete nanoid content1 incs t c Hincs Ht)
    as (w & opts & e & Hrun & Hst & _).
  exists w, opts, e. split; [exact Hrun|].
  change (messages (submit_begin nanoid content2 (sub_ctx w)).2)
    with (to_core <$> stored (sub_ctx (submit_begin nanoid content2 (sub_ctx w)).1)).
  rewrite submit_begin_stored. apply stored_get in Hst. rewrite Hst. simpl.
  fold (stored c). by rewrite !fmap_app, <- !app_assoc.
Qed.

Lemma next_call_history_witness :
  ∃ w opts e,
    submitUserMessage example_ids "I have a headache"
      (headache_stream ++ [headache_end]) empty_ctx = JS.Ok (w, opts, e)
    ∧ messages (submit_begin example_ids "Thanks" (sub_ctx w)).2
      = (to_core <$> stored empty_ctx)
          ++ [ {| CoreMessage.role := "user";
                  CoreMessage.content := JS.Str "I have a headache";
                  CoreMessage.name := None |};
               {| CoreMessage.role := "assistant";
                  CoreMessage.content := JS.Str (Increment.content headache_end);
                  CoreMessage.name := None |};
               {| CoreMessage.role := "user";
                  CoreMessage.content := JS.Str "Thanks";
                  CoreMessage.name := None |} ].
Proof.
  apply (next_call_history example_ids "I have a headache" "Thanks"
           headache_stream headache_end empty_ctx).
  - repeat constructor.
  - reflexivity.
Defined.
